(** * GitHub Event Monitor: the front-end's feed, search and card logic

    A shallow embedding of the TypeScript sources of the front-end
    (components [Feedbox], [WarningCard], [Viewer], [JsonViewer], the
    [Home] page that lists the raw stream, [lib/utils] and
    [lib/supabase/client]) together with the properties the
    specification states about them.

    Conventions of the embedding:
    - a JavaScript string is a [string]; its characters are read as
      code units below 256;
    - an optional property ([x?: T], or a value that may be [undefined]
      or [null]) is an [option];
    - a React state cell is the value it holds, and a state update
      [setX(f)] is the function [f] from the previous to the next value;
    - a JSON document is a [JsValue]. *)

From Stdlib Require Import List String Ascii Bool ZArith Lia DecimalString.
From Stdlib Require DecimalNat.
Import ListNotations.

Local Open Scope list_scope.
Local Open Scope string_scope.

(* ================================================================== *)
(** * Part I: the program *)
(* ================================================================== *)

(** ** JavaScript strings *)

Module JsString.

(** [String.prototype.toLowerCase] on one code unit below 256:
    [A]..[Z] and the Latin-1 capitals (0xC0..0xDE except the
    multiplication sign 0xD7) move up by 32. *)
Definition lower_char (c : ascii) : ascii :=
  let n := nat_of_ascii c in
  if (((65 <=? n) && (n <=? 90))
      || ((192 <=? n) && (n <=? 222) && negb (n =? 215)))%nat
  then ascii_of_nat (n + 32)
  else c.

Fixpoint toLowerCase (s : string) : string :=
  match s with
  | EmptyString => EmptyString
  | String c s' => String (lower_char c) (toLowerCase s')
  end.

(** [s.split(sep)] for a separator of one character (both call sites
    in the program split on a single character).  The result is never
    empty: a string without separator is its own only segment. *)
Fixpoint split (sep : ascii) (s : string) : list string :=
  match s with
  | EmptyString => [EmptyString]
  | String c s' =>
      if Ascii.eqb c sep then EmptyString :: split sep s'
      else match split sep s' with
           | h :: t => String c h :: t
           | [] => [String c EmptyString]
           end
  end.

(** [arr.pop()] as an expression: the last element, [undefined] on
    an empty array. *)
Fixpoint pop (l : list string) : option string :=
  match l with
  | [] => None
  | [x] => Some x
  | _ :: t => pop t
  end.

(** [a || b] where [a] is a string or [undefined]: the empty string
    and [undefined] are falsy. *)
Definition or_else (a : option string) (b : string) : string :=
  match a with
  | Some EmptyString | None => b
  | Some s => s
  end.

Fixpoint drop (n : nat) (s : string) : string :=
  match n, s with
  | O, _ => s
  | S _, EmptyString => EmptyString
  | S n', String _ s' => drop n' s'
  end.

(** [s.replace(pat, rep)] with a string pattern: only the first
    occurrence is replaced ([rep] holds no [$] pattern at the call
    sites). *)
Fixpoint replace (pat rep s : string) : string :=
  if String.prefix pat s then rep ++ drop (String.length pat) s
  else match s with
       | EmptyString => EmptyString
       | String c s' => String c (replace pat rep s')
       end.

(** [arr.join(sep)]. *)
Definition join (sep : string) (l : list string) : string :=
  String.concat sep l.

End JsString.

(** ** JSON documents *)

(** What [JSON.parse] yields.  Numbers are the integers, printed in
  decimal; an object lists its own properties in property order. *)
#[warnings="-register-all"]
Inductive JsValue : Type :=
| JNull
| JBool (b : bool)
| JNum (n : Z)
| JStr (s : string)
| JArr (items : list JsValue)
| JObj (props : list (string * JsValue)).

Module JSON.

(** [!!v]. *)
Definition truthy (v : JsValue) : bool :=
  match v with
  | JNull => false
  | JBool b => b
  | JNum n => negb (n =? 0)%Z
  | JStr s => negb (String.eqb s "")
  | JArr _ | JObj _ => true
  end.

Definition hex_digit (n : nat) : ascii :=
  if (n <? 10)%nat then ascii_of_nat (48 + n) else ascii_of_nat (87 + n).

Definition newline : ascii := ascii_of_nat 10.

(** One code unit inside a quoted JSON string. *)
Definition quote_char (c : ascii) : string :=
  let n := nat_of_ascii c in
  if (n =? 8)%nat then "\b"
  else if (n =? 9)%nat then "\t"
  else if (n =? 10)%nat then "\n"
  else if (n =? 12)%nat then "\f"
  else if (n =? 13)%nat then "\r"
  else if (n =? 34)%nat then String "\" (String c EmptyString)
  else if (n =? 92)%nat then "\\"
  else if (n <? 32)%nat then
    "\u00" ++ String (hex_digit (n / 16)) (String (hex_digit (n mod 16)) EmptyString)
  else String c EmptyString.

Fixpoint quote_body (s : string) : string :=
  match s with
  | EmptyString => EmptyString
  | String c s' => quote_char c ++ quote_body s'
  end.

Definition dquote : string := String (ascii_of_nat 34) EmptyString.

Definition quote (s : string) : string := dquote ++ quote_body s ++ dquote.

(** The decimal digits of an integer: what JavaScript prints for the
    integers of magnitude below 10^21 (from there on it prints an
    exponent form, which is not modelled). *)
Definition number_to_string (n : Z) : string :=
  NilZero.string_of_int (Z.to_int n).

Definition nl : string := String newline EmptyString.

(** [JSON.stringify(v, null, gap)] at the current indentation
    [indent]. *)
Fixpoint serialize (gap indent : string) (v : JsValue) : string :=
  match v with
  | JNull => "null"
  | JBool true => "true"
  | JBool false => "false"
  | JNum n => number_to_string n
  | JStr s => quote s
  | JArr [] => "[]"
  | JArr items =>
      let inner := indent ++ gap in
      "[" ++ nl ++ inner
      ++ JsString.join ("," ++ nl ++ inner) (map (serialize gap inner) items)
      ++ nl ++ indent ++ "]"
  | JObj [] => "{}"
  | JObj props =>
      let inner := indent ++ gap in
      "{" ++ nl ++ inner
      ++ JsString.join ("," ++ nl ++ inner)
           (map (fun kv => quote (fst kv) ++ ": " ++ serialize gap inner (snd kv)) props)
      ++ nl ++ indent ++ "}"
  end.

(** [JSON.stringify(v, null, 2)]. *)
Definition stringify2 (v : JsValue) : string := serialize "  " "" v.

End JSON.


(** ** The stream message ([StreamMessage] in the Feedbox source) *)

Module Actor.
Record t : Type := mk
  { id : Z;
    login : string;
    display_login : option string;
    avatar_url : string;
    url : option string }.
End Actor.

Module Repo.
Record t : Type := mk
  { id : Z;
    name : string;
    url : string }.
End Repo.

(** [actor] and [repo] are read with [?.] by the helpers, so they are
  optional here; [extra] is the index signature
  [[key: string]: unknown]. *)
Module Payload.
Record t : Type := mk
  { id : string;
    type : string;
    actor : option Actor.t;
    repo : option Repo.t;
    created_at : string;
    extra : list (string * JsValue) }.
End Payload.

Module Analysis.
Record t : Type := mk
  { root_cause : list string;
    impact : list string;
    next_steps : list string }.
End Analysis.

Module StreamMessage.
Record t : Type := mk
  { payload : Payload.t;
    analysis : option Analysis.t;
    warning_id : string;
    warning_type : string;
    is_ping : bool }.
End StreamMessage.

(** What [JSON.parse(event.data)] yields on the live stream, before the
  Feedbox has checked anything: a ping carries no payload, and
  [is_ping] may be missing. *)
Module StreamData.
Record t : Type := mk
  { payload : option Payload.t;
    analysis : option Analysis.t;
    warning_id : string;
    warning_type : string;
    is_ping : option bool }.
End StreamData.

(** One server-sent event: [data] is [event.data]; [json] is the value
  of [JSON.parse(event.data)], [None] when the parse (or reading a
  property of its result) throws. *)
Module MessageEvent.
Record t : Type := mk
  { data : string;
    json : option StreamData.t }.
End MessageEvent.

(** ** lib/utils *)

Module Utils.

Record RepositoryInfo : Type := mkRepositoryInfo
  { name : string;
    url : string }.

Record ActorInfo : Type := mkActorInfo
  { actor_name : string;
    username : string;
    avatarUrl : string;
    profileUrl : string }.

Definition getWarningType (message : StreamMessage.t) : string :=
  JsString.or_else (Some (StreamMessage.warning_type message)) "Unknown Warning".

(** [new Date(timestamp).toLocaleString()]: the rendering depends on
    the platform's locale and time zone, taken as [toLocaleString]. *)
Definition formatTimestamp (toLocaleString : string -> string)
    (timestamp : string) : string :=
  toLocaleString timestamp.

Definition getRepositoryInfo (message : StreamMessage.t) : RepositoryInfo :=
  let repo := Payload.repo (StreamMessage.payload message) in
  let repoName :=
    JsString.or_else (option_map Repo.name repo) "Unknown Repository" in
  let repoUrl := JsString.or_else (option_map Repo.url repo) "#" in
  {| name := JsString.or_else (JsString.pop (JsString.split "/" repoName)) repoName;
     url := JsString.replace "api.github.com/repos" "github.com" repoUrl |}.

Definition getActorInfo (message : StreamMessage.t) : ActorInfo :=
  let actor := Payload.actor (StreamMessage.payload message) in
  let display_login :=
    match actor with Some a => Actor.display_login a | None => None end in
  let url := match actor with Some a => Actor.url a | None => None end in
  {| actor_name :=
       JsString.or_else display_login
         (JsString.or_else (option_map Actor.login actor) "Unknown User");
     username := JsString.or_else (option_map Actor.login actor) "unknown";
     avatarUrl := JsString.or_else (option_map Actor.avatar_url actor) "";
     profileUrl :=
       JsString.or_else
         (option_map (JsString.replace "api.github.com/users" "github.com") url)
         "#" |}.

End Utils.

(** ** components/app/warning-card *)

Module WarningCard.

Record CardAnalysis : Type := mkCardAnalysis
  { rootCause : list string;
    impact : list string;
    nextSteps : list string }.

Record Props : Type := mkProps
  { id : string;
    warningType : string;
    repository : Utils.RepositoryInfo;
    actor : Utils.ActorInfo;
    timestamp : string;
    isProcessed : bool;
    analysis : option CardAnalysis;
    isViewed : option bool }.

(** A [switch] compares with [===], case after case. *)
Definition getWarningTypeColor (type : string) : string :=
  let t := JsString.toLowerCase type in
  if String.eqb t "Push to default branch" then
    "bg-red-100 text-red-800 border-red-200"
  else if String.eqb t "Large push to default branch" then
    "bg-orange-100 text-orange-800 border-orange-200"
  else if String.eqb t "Default branch deleted" then
    "bg-yellow-100 text-yellow-800 border-yellow-200"
  else if String.eqb t "Repository visibility changed to public" then
    "bg-blue-100 text-blue-800 border-blue-200"
  else if String.eqb t "New collaborator added" then
    "bg-green-100 text-green-800 border-green-200"
  else "bg-gray-100 text-gray-800 border-gray-200".

(** What [<CardContent>] holds. *)
Inductive Content : Type :=
| BeingProcessed
    (* the spinner, "This warning is being processed..." *)
| AnalysisSections (rootCause impact nextSteps : list string)
    (* the Root Cause, Impact and Next Steps lists *)
| Nothing.
    (* [analysis && ...] with [analysis] undefined *)

Record Rendered : Type := mkRendered
  { hoverable : bool;
    badge_class : string;
    badge_text : string;
    repository_link : Utils.RepositoryInfo;
    timestamp_text : string;
    actor_block : Utils.ActorInfo;
    content : Content }.

Definition render (props : Props) : Rendered :=
  let isViewed := match isViewed props with Some b => b | None => false end in
  {| hoverable := negb isViewed;
     badge_class := getWarningTypeColor (warningType props) ++ " font-medium";
     badge_text := warningType props;
     repository_link := repository props;
     timestamp_text := timestamp props;
     actor_block := actor props;
     content :=
       if negb (isProcessed props) then BeingProcessed
       else match analysis props with
            | Some a => AnalysisSections (rootCause a) (impact a) (nextSteps a)
            | None => Nothing
            end |}.

End WarningCard.

(** ** components/app/json-viewer *)

Module JsonViewer.

Record Line : Type := mkLine
  { number : nat;
    content : string }.

(** [arr.map((x, index) => f x index)]. *)
Fixpoint map_from {A B : Type} (f : A -> nat -> B) (index : nat)
    (l : list A) : list B :=
  match l with
  | [] => []
  | x :: l' => f x index :: map_from f (S index) l'
  end.

Definition map_indexed {A B : Type} (f : A -> nat -> B) (l : list A) : list B :=
  map_from f 0 l.

Definition formatJsonWithLineNumbers (obj : JsValue) : list Line :=
  if negb (JSON.truthy obj) then []
  else
    let jsonString := JSON.stringify2 obj in
    let lines := JsString.split JSON.newline jsonString in
    map_indexed (fun line index => {| number := index + 1; content := line |}) lines.

End JsonViewer.

(** ** lib/supabase/client *)

Module FlaggedEvent.
(** A row of [flagged_events]; the three searched columns may be
    [NULL]. *)
Record t : Type := mk
  { id : string;
    type : string;
    event_payload : Payload.t;
    root_cause : list string;
    impact : list string;
    next_steps : list string;
    has_been_processed : bool;
    repo_name : option string;
    org_name : option string;
    actor_username : option string }.
End FlaggedEvent.

Module Supabase.

(** *** The [ilike] operator

    PostgREST hands the value of [col.ilike.value] to PostgreSQL's
    [ILIKE] after turning every [*] into [%].  In the pattern, [%]
    stands for any run of characters, [_] for any one character, and
    a backslash makes the next character literal; letters compare
    without regard to case. *)

Inductive Token : Type :=
| AnyRun           (* % *)
| AnyChar          (* _ *)
| Literal (c : ascii).

Fixpoint star_to_percent (value : string) : string :=
  match value with
  | EmptyString => EmptyString
  | String c v => String (if Ascii.eqb c "*" then "%"%char else c) (star_to_percent v)
  end.

(** [None]: the pattern ends with the escape character, which
    PostgreSQL rejects. *)
Fixpoint tokens (pattern : string) : option (list Token) :=
  match pattern with
  | EmptyString => Some []
  | String c rest =>
      if Ascii.eqb c "%" then option_map (cons AnyRun) (tokens rest)
      else if Ascii.eqb c "_" then option_map (cons AnyChar) (tokens rest)
      else if Ascii.eqb c "\" then
        match rest with
        | EmptyString => None
        | String d rest' => option_map (cons (Literal d)) (tokens rest')
        end
      else option_map (cons (Literal c)) (tokens rest)
  end.

Fixpoint matches (pattern : list Token) : string -> bool :=
  match pattern with
  | [] => fun s => match s with EmptyString => true | _ => false end
  | AnyRun :: pattern' =>
      fix skip (s : string) : bool :=
        matches pattern' s
        || match s with
           | EmptyString => false
           | String _ s' => skip s'
           end
  | AnyChar :: pattern' =>
      fun s => match s with
               | EmptyString => false
               | String _ s' => matches pattern' s'
               end
  | Literal c :: pattern' =>
      fun s => match s with
               | EmptyString => false
               | String d s' =>
                   Ascii.eqb (JsString.lower_char d) (JsString.lower_char c)
                   && matches pattern' s'
               end
  end.

(** [column.ilike.value] on one row's column; a [NULL] column
    matches nothing. *)
Definition ilike (column : option string) (value : string) : bool :=
  match column, tokens (star_to_percent value) with
  | Some s, Some pattern => matches pattern s
  | _, _ => false
  end.

(** The row filter of the request: [.eq("has_been_processed", true)]
    and the [.or(...)] of the three [ilike] filters whose value is
    [%query%].  The [or] list is the three filters written in the
    source as long as [query] holds none of the characters [,], [(]
    and [)], which delimit that list. *)
Definition selected (query : string) (row : FlaggedEvent.t) : bool :=
  Bool.eqb (FlaggedEvent.has_been_processed row) true
  && (ilike (FlaggedEvent.repo_name row) ("%" ++ query ++ "%")
      || ilike (FlaggedEvent.org_name row) ("%" ++ query ++ "%")
      || ilike (FlaggedEvent.actor_username row) ("%" ++ query ++ "%")).

(** [flagged_events] is the table as the request finds it, [None]
    when the request fails; the result is [data], [null] in that
    case. *)
Definition getRelevantEvents (flagged_events : option (list FlaggedEvent.t))
    (query : string) : option (list FlaggedEvent.t) :=
  option_map (filter (selected query)) flagged_events.

End Supabase.

(** ** components/app/feedbox *)

Module Feedbox.

Inductive Tab : Type := feed | search.

Record State : Type := mkState
  { messages : list StreamMessage.t;
    activeTab : Tab;
    searchQuery : string;
    searchResults : list StreamMessage.t;
    isLoading : bool }.

Definition initial : State :=
  {| messages := [];
     activeTab := feed;
     searchQuery := "";
     searchResults := [];
     isLoading := false |}.

(** The guard [data.payload && data.is_ping == false]: past it,
    [data] is used as a [StreamMessage].  A payload is an object, so it
    is truthy when it is there; of the values [is_ping] takes, only
    [false] itself equals [false] (a missing [is_ping] does not). *)
Definition accepted (data : StreamData.t) : option StreamMessage.t :=
  match StreamData.payload data, StreamData.is_ping data with
  | Some payload, Some false =>
      Some {| StreamMessage.payload := payload;
              StreamMessage.analysis := StreamData.analysis data;
              StreamMessage.warning_id := StreamData.warning_id data;
              StreamMessage.warning_type := StreamData.warning_type data;
              StreamMessage.is_ping := false |}
  | _, _ => None
  end.

(** The function handed to [setMessages]:
    [[data, ...prevMessages].slice(0, 20)]. *)
Definition newMessages (data : StreamMessage.t)
    (prevMessages : list StreamMessage.t) : list StreamMessage.t :=
  firstn 20 (data :: prevMessages).

Definition setMessages (f : list StreamMessage.t -> list StreamMessage.t)
    (st : State) : State :=
  {| messages := f (messages st);
     activeTab := activeTab st;
     searchQuery := searchQuery st;
     searchResults := searchResults st;
     isLoading := isLoading st |}.

(** [eventSource.onmessage]; an exception in the [try] block is
    caught and logged, the state stays as it is. *)
Definition onmessage (event : MessageEvent.t) (st : State) : State :=
  match MessageEvent.json event with
  | None => st
  | Some data =>
      match accepted data with
      | Some message => setMessages (newMessages message) st
      | None => st
      end
  end.

(** The feed after the events of a stream, oldest event first. *)
Definition run (events : list MessageEvent.t) (st : State) : State :=
  fold_left (fun st event => onmessage event st) events st.

(** One search result as a stream message. *)
Definition of_event (event : FlaggedEvent.t) : StreamMessage.t :=
  {| StreamMessage.warning_id := FlaggedEvent.id event;
     StreamMessage.warning_type := FlaggedEvent.type event;
     StreamMessage.payload := FlaggedEvent.event_payload event;
     StreamMessage.analysis :=
       Some {| Analysis.root_cause := FlaggedEvent.root_cause event;
               Analysis.impact := FlaggedEvent.impact event;
               Analysis.next_steps := FlaggedEvent.next_steps event |};
     StreamMessage.is_ping := false |}.

(** [handleSearch], from the call to its last state update;
    [flagged_events] is the table [getRelevantEvents] queries. *)
Definition handleSearch (flagged_events : option (list FlaggedEvent.t))
    (query : string) (st : State) : State :=
  let data := Supabase.getRelevantEvents flagged_events query in
  let newSearchResults :=
    match data with
    | Some rows => ([] ++ map of_event rows)%list
    | None => []
    end in
  {| messages := messages st;
     activeTab := activeTab st;
     searchQuery := searchQuery st;
     searchResults := newSearchResults;
     isLoading := false |}.

(** The props of the [<WarningCard>] of one feed entry. *)
Definition feed_card (toLocaleString : string -> string)
    (message : StreamMessage.t) : WarningCard.Props :=
  {| WarningCard.id := StreamMessage.warning_id message;
     WarningCard.warningType := Utils.getWarningType message;
     WarningCard.repository := Utils.getRepositoryInfo message;
     WarningCard.actor := Utils.getActorInfo message;
     WarningCard.timestamp :=
       Utils.formatTimestamp toLocaleString
         (Payload.created_at (StreamMessage.payload message));
     WarningCard.isProcessed :=
       match StreamMessage.analysis message with Some _ => true | None => false end;
     WarningCard.analysis :=
       match StreamMessage.analysis message with
       | Some a =>
           Some {| WarningCard.rootCause := Analysis.root_cause a;
                   WarningCard.impact := Analysis.impact a;
                   WarningCard.nextSteps := Analysis.next_steps a |}
       | None => None
       end;
     WarningCard.isViewed := None |}.

(** The props of the [<WarningCard>] of one search result. *)
Definition search_card (toLocaleString : string -> string)
    (message : StreamMessage.t) : WarningCard.Props :=
  {| WarningCard.id := StreamMessage.warning_id message;
     WarningCard.warningType := Utils.getWarningType message;
     WarningCard.repository := Utils.getRepositoryInfo message;
     WarningCard.actor := Utils.getActorInfo message;
     WarningCard.timestamp :=
       Utils.formatTimestamp toLocaleString
         (Payload.created_at (StreamMessage.payload message));
     WarningCard.isProcessed :=
       match StreamMessage.analysis message with Some _ => true | None => false end;
     WarningCard.analysis :=
       match StreamMessage.analysis message with
       | Some a =>
           Some {| WarningCard.rootCause := Analysis.root_cause a;
                   WarningCard.impact := Analysis.impact a;
                   WarningCard.nextSteps := Analysis.next_steps a |}
       | None => None
       end;
     WarningCard.isViewed := None |}.

(** The cards of the open tab, top to bottom, each with its React
    key. *)
Definition cards (toLocaleString : string -> string) (st : State)
    : list (string * nat * WarningCard.Props) :=
  match activeTab st with
  | feed =>
      JsonViewer.map_indexed
        (fun message index =>
           (StreamMessage.warning_id message, index, feed_card toLocaleString message))
        (messages st)
  | search =>
      JsonViewer.map_indexed
        (fun message index =>
           ("search-" ++ StreamMessage.warning_id message, index,
            search_card toLocaleString message))
        (searchResults st)
  end.

End Feedbox.

(** ** components/app/viewer *)

Module Viewer.

(** The props of the viewer's [<WarningCard>]; without a current
    event the viewer shows "No Event Selected". *)
Definition card (toLocaleString : string -> string)
    (currEvent : option StreamMessage.t) : option WarningCard.Props :=
  match currEvent with
  | Some currEvent =>
      Some
        {| WarningCard.id := StreamMessage.warning_id currEvent;
           WarningCard.warningType := Utils.getWarningType currEvent;
           WarningCard.repository := Utils.getRepositoryInfo currEvent;
           WarningCard.actor := Utils.getActorInfo currEvent;
           WarningCard.timestamp :=
             Utils.formatTimestamp toLocaleString
               (Payload.created_at (StreamMessage.payload currEvent));
           WarningCard.isProcessed :=
             match StreamMessage.analysis currEvent with
             | Some _ => true
             | None => false
             end;
           WarningCard.analysis :=
             match StreamMessage.analysis currEvent with
             | Some a =>
                 Some {| WarningCard.rootCause := Analysis.root_cause a;
                         WarningCard.impact := Analysis.impact a;
                         WarningCard.nextSteps := Analysis.next_steps a |}
             | None => None
             end;
           WarningCard.isViewed := Some true |}
  | None => None
  end.

End Viewer.

(** ** The second [Home] component: the page that lists the raw stream *)

Module RawHome.

(** [eventSource.onmessage]: the function handed to [setMessages] is
    [[event.data, ...prevMessages]]. *)
Definition onmessage (event : MessageEvent.t) (prevMessages : list string)
    : list string :=
  MessageEvent.data event :: prevMessages.

Definition run (events : list MessageEvent.t) (messages : list string)
    : list string :=
  fold_left (fun messages event => onmessage event messages) events messages.

End RawHome.

(** ** What the Feedbox shows around its cards *)

Module FeedboxView.

(** A number inside a text: its decimal digits. *)
Definition number_text (n : nat) : string :=
  NilZero.string_of_uint (Nat.to_uint n).

(** The heading of the box. *)
Definition title (st : Feedbox.State) : string :=
  match Feedbox.activeTab st with
  | Feedbox.feed =>
      "Recent Warnings (" ++ number_text (List.length (Feedbox.messages st)) ++ ")"
  | Feedbox.search => "Search Results"
  end.

(** The scrolling area of the box. *)
Inductive Body : Type :=
| Connecting
    (* "Connecting to the event stream..." *)
| FeedCards (cards : list (string * nat * WarningCard.Props))
| LoadingResults
    (* "Loading search results..." *)
| NoResults (hint : string)
    (* "No search results" and a hint *)
| SearchCards (cards : list (string * nat * WarningCard.Props)).

Definition body (toLocaleString : string -> string) (st : Feedbox.State) : Body :=
  match Feedbox.activeTab st with
  | Feedbox.feed =>
      if (List.length (Feedbox.messages st) =? 0)%nat then Connecting
      else FeedCards (Feedbox.cards toLocaleString st)
  | Feedbox.search =>
      if (List.length (Feedbox.searchResults st) =? 0)%nat then
        if Feedbox.isLoading st then LoadingResults
        else NoResults
               (if String.eqb (Feedbox.searchQuery st) ""
                then "Enter a search query above to find warnings."
                else "Try adjusting your search terms or filters.")
      else SearchCards (Feedbox.cards toLocaleString st)
  end.

(** The note under the feed. *)
Definition feed_footer (st : Feedbox.State) : option string :=
  match Feedbox.activeTab st with
  | Feedbox.feed =>
      if (20 <=? List.length (Feedbox.messages st))%nat
      then Some "Showing latest 20 warnings. Older warnings are automatically removed."
      else None
  | Feedbox.search => None
  end.

(** The note under the search results. *)
Definition search_footer (st : Feedbox.State) : option string :=
  match Feedbox.activeTab st with
  | Feedbox.search =>
      let n := List.length (Feedbox.searchResults st) in
      if (0 <? n)%nat
      then Some ("Found " ++ number_text n ++ " result"
                 ++ (if negb (n =? 1)%nat then "s" else ""))
      else None
  | Feedbox.feed => None
  end.

(** The React key of a card, [`${id}-${index}`], from the id part and
    the index that [Feedbox.cards] lists. *)
Definition key_text (key : string * nat) : string :=
  fst key ++ "-" ++ number_text (snd key).

End FeedboxView.

(** ** The Feedbox's search box *)

Module SearchBox.

(** The code units below 256 that [trim] strips: tab, line feed,
    vertical tab, form feed, carriage return, space and no-break
    space. *)
Definition is_space (c : ascii) : bool :=
  let n := nat_of_ascii c in
  ((n =? 9) || (n =? 10) || (n =? 11) || (n =? 12) || (n =? 13)
   || (n =? 32) || (n =? 160))%nat.

Fixpoint trimStart (s : string) : string :=
  match s with
  | EmptyString => EmptyString
  | String c s' => if is_space c then trimStart s' else s
  end.

Fixpoint trimEnd (s : string) : string :=
  match s with
  | EmptyString => EmptyString
  | String c s' =>
      match trimEnd s' with
      | EmptyString => if is_space c then EmptyString else String c EmptyString
      | t => String c t
      end
  end.

(** [s.trim()]. *)
Definition trim (s : string) : string := trimEnd (trimStart s).

Definition setActiveTab (tab : Feedbox.Tab) (st : Feedbox.State) : Feedbox.State :=
  {| Feedbox.messages := Feedbox.messages st;
     Feedbox.activeTab := tab;
     Feedbox.searchQuery := Feedbox.searchQuery st;
     Feedbox.searchResults := Feedbox.searchResults st;
     Feedbox.isLoading := Feedbox.isLoading st |}.

Definition setSearchQuery (query : string) (st : Feedbox.State) : Feedbox.State :=
  {| Feedbox.messages := Feedbox.messages st;
     Feedbox.activeTab := Feedbox.activeTab st;
     Feedbox.searchQuery := query;
     Feedbox.searchResults := Feedbox.searchResults st;
     Feedbox.isLoading := Feedbox.isLoading st |}.

Definition setSearchResults (results : list StreamMessage.t) (st : Feedbox.State)
    : Feedbox.State :=
  {| Feedbox.messages := Feedbox.messages st;
     Feedbox.activeTab := Feedbox.activeTab st;
     Feedbox.searchQuery := Feedbox.searchQuery st;
     Feedbox.searchResults := results;
     Feedbox.isLoading := Feedbox.isLoading st |}.

Definition setIsLoading (loading : bool) (st : Feedbox.State) : Feedbox.State :=
  {| Feedbox.messages := Feedbox.messages st;
     Feedbox.activeTab := Feedbox.activeTab st;
     Feedbox.searchQuery := Feedbox.searchQuery st;
     Feedbox.searchResults := Feedbox.searchResults st;
     Feedbox.isLoading := loading |}.

(** What the auto-search effect does when it runs, after a change of
    the query or of the tab. *)
Inductive EffectAction : Type :=
| Schedule (query : string) (delay : nat)
    (* [setTimeout(() => handleSearch(query), delay)] *)
| Clear
    (* [setSearchResults([])] *)
| Idle.

Definition auto_search (st : Feedbox.State) : EffectAction :=
  match Feedbox.activeTab st with
  | Feedbox.search =>
      if negb (String.eqb (trim (Feedbox.searchQuery st)) "")
      then Schedule (Feedbox.searchQuery st) 300
      else Clear
  | Feedbox.feed => Idle
  end.

(** The state while [handleSearch] waits for the answer: only
    [setIsLoading(true)] has run. *)
Definition handleSearch_waiting (st : Feedbox.State) : Feedbox.State :=
  setIsLoading true st.

End SearchBox.

(** ** The event source of a subscriber *)

Module Subscription.

(** What the [EventSource] delivers: a message, or a failure of the
    connection. *)
Inductive Delivery : Type :=
| Message (event : MessageEvent.t)
| Failure.

(** A Feedbox and its event source; a closed source delivers nothing
    more. *)
Record t : Type := mk
  { closed : bool;
    feedbox : Feedbox.State }.

Definition opened : t :=
  {| closed := false; feedbox := Feedbox.initial |}.

(** [onmessage] and [onerror] as the Feedbox installs them: a failure
    is logged and the source closed. *)
Definition deliver (d : Delivery) (sub : t) : t :=
  if closed sub then sub
  else match d with
       | Message event =>
           {| closed := false; feedbox := Feedbox.onmessage event (feedbox sub) |}
       | Failure => {| closed := true; feedbox := feedbox sub |}
       end.

Definition run (ds : list Delivery) (sub : t) : t :=
  fold_left (fun sub d => deliver d sub) ds sub.

End Subscription.

(** ** The first [Home] component: the page with the Feedbox and the viewer *)

Module Home.

(** The page's own cell [currEvent], and the state of the Feedbox it
    holds. *)
Record State : Type := mkState
  { currEvent : option StreamMessage.t;
    feedbox : Feedbox.State }.

Definition initial : State :=
  {| currEvent := None; feedbox := Feedbox.initial |}.

(** The messages behind the cards of the open tab. *)
Definition shown (st : Feedbox.State) : list StreamMessage.t :=
  match Feedbox.activeTab st with
  | Feedbox.feed => Feedbox.messages st
  | Feedbox.search => Feedbox.searchResults st
  end.

(** A click on the card at [index]: [setCurrEvent(message)]. *)
Definition click (index : nat) (st : State) : State :=
  match nth_error (shown (feedbox st)) index with
  | Some message => {| currEvent := Some message; feedbox := feedbox st |}
  | None => st
  end.

(** A stream event reaches the Feedbox. *)
Definition onmessage (event : MessageEvent.t) (st : State) : State :=
  {| currEvent := currEvent st;
     feedbox := Feedbox.onmessage event (feedbox st) |}.

Definition run (events : list MessageEvent.t) (st : State) : State :=
  fold_left (fun st event => onmessage event st) events st.

End Home.

(** ** The avatar in the card's header *)

Module CardHeader.

(** [src={actor.avatarUrl || "/placeholder.svg"}]. *)
Definition avatar_src (props : WarningCard.Props) : string :=
  JsString.or_else (Some (Utils.avatarUrl (WarningCard.actor props))) "/placeholder.svg".

End CardHeader.

(** ** Vocabulary of the properties *)

(** The letters [A]..[Z]. *)
Definition is_capital (c : ascii) : bool :=
  ((65 <=? nat_of_ascii c) && (nat_of_ascii c <=? 90))%nat.

(** [pat] occurs in [s]. *)
Definition occurs (pat s : string) : Prop :=
  exists pre post, s = pre ++ pat ++ post.

(** [q] occurs in [s] when case is ignored. *)
Definition contains_ci (q s : string) : Prop :=
  occurs (JsString.toLowerCase q) (JsString.toLowerCase s).

(** The same for a column, which may be [NULL]. *)
Definition column_contains_ci (q : string) (column : option string) : Prop :=
  match column with
  | Some s => contains_ci q s
  | None => False
  end.

(** [seg] is the last segment of [s] when [s] is cut at every [sep]:
    it holds no [sep], and it is all of [s] or what follows the last
    [sep] of [s]. *)
Definition last_segment (sep : ascii) (s seg : string) : Prop :=
  (forall pre post, seg <> pre ++ String sep post)
  /\ (s = seg \/ exists pre, s = pre ++ String sep seg).

(** [t] is [s] with the first occurrence of [pat], if there is one,
    replaced by [rep]. *)
Inductive replaced_first (pat rep s : string) : string -> Prop :=
| replaced_none :
    ~ occurs pat s -> replaced_first pat rep s s
| replaced_at (pre post : string) :
    s = pre ++ pat ++ post ->
    (forall pre' post', s = pre' ++ pat ++ post' ->
       String.length pre <= String.length pre') ->
    replaced_first pat rep s (pre ++ rep ++ post).

(** [ls] are the lines of [s]: joined by line feeds they give [s] back,
    and none of them holds a line feed. *)
Definition lines_of (s : string) (ls : list string) : Prop :=
  String.concat JSON.nl ls = s
  /\ Forall (fun l => forall pre post, l <> pre ++ String JSON.newline post) ls.

(** No character of [chars] is in [s]. *)
Fixpoint free_of (chars : list ascii) (s : string) : bool :=
  match s with
  | EmptyString => true
  | String c s' =>
      negb (existsb (Ascii.eqb c) chars) && free_of chars s'
  end.

(** The characters that delimit the filters of an [or=(...)] list. *)
Definition or_delimiters : list ascii := [","; "("; ")"]%char.

(** The characters with a meaning of their own in an [ilike] value. *)
Definition ilike_specials : list ascii := ["%"; "_"; "*"; "\"]%char.

(** The pattern that matches [q] character by character. *)
Fixpoint literals (q : string) : list Supabase.Token :=
  match q with
  | EmptyString => []
  | String c q' => Supabase.Literal c :: literals q'
  end.

(** The messages a stream gets past the Feedbox's guard, oldest
    first. *)
Definition accepted_of (events : list MessageEvent.t) : list StreamMessage.t :=
  flat_map
    (fun event =>
       match MessageEvent.json event with
       | Some data =>
           match Feedbox.accepted data with
           | Some message => [message]
           | None => []
           end
       | None => []
       end)
    events.

(** The entries of a feed that carry the warning id [id]. *)
Definition entries_for (id : string) (feed : list StreamMessage.t)
    : list StreamMessage.t :=
  filter (fun message => String.eqb (StreamMessage.warning_id message) id) feed.

(** The card [props] shows the state of [message]: the placeholder
    exactly when the message has no analysis, the three analysis
    sections exactly when it has one. *)
Definition card_follows_analysis (message : StreamMessage.t)
    (props : WarningCard.Props) : Prop :=
  (WarningCard.isProcessed props = true <-> StreamMessage.analysis message <> None)
  /\ (WarningCard.content (WarningCard.render props) = WarningCard.BeingProcessed
      <-> StreamMessage.analysis message = None)
  /\ (forall a, StreamMessage.analysis message = Some a <->
        WarningCard.content (WarningCard.render props)
        = WarningCard.AnalysisSections
            (Analysis.root_cause a) (Analysis.impact a) (Analysis.next_steps a)).

(** Every character of [s] is white space. *)
Fixpoint all_space (s : string) : bool :=
  match s with
  | EmptyString => true
  | String c s' => SearchBox.is_space c && all_space s'
  end.

(** One of the three searched columns of [row] is not [NULL]. *)
Definition has_searched_column (row : FlaggedEvent.t) : bool :=
  match FlaggedEvent.repo_name row, FlaggedEvent.org_name row,
        FlaggedEvent.actor_username row with
  | None, None, None => false
  | _, _, _ => true
  end.

(** A pattern with its literal characters in lower case. *)
Definition lower_token (t : Supabase.Token) : Supabase.Token :=
  match t with
  | Supabase.Literal c => Supabase.Literal (JsString.lower_char c)
  | _ => t
  end.

(** How often the character [c] stands in [s]. *)
Fixpoint count_char (c : ascii) (s : string) : nat :=
  match s with
  | EmptyString => 0
  | String d s' => (if Ascii.eqb d c then 1 else 0) + count_char c s'
  end.

(** The lines a document takes by its shape alone: one for a scalar
    and for an empty array or object, otherwise the lines of the members
    between an opening and a closing line. *)
Fixpoint line_count (v : JsValue) : nat :=
  match v with
  | JArr ((_ :: _) as items) => 2 + list_sum (map line_count items)
  | JObj ((_ :: _) as props) =>
      2 + list_sum (map (fun kv => line_count (snd kv)) props)
  | _ => 1
  end.

(** ** Sample data *)

Module Sample.

Definition repo : Repo.t :=
  {| Repo.id := 7;
     Repo.name := "octo/hello";
     Repo.url := "https://api.github.com/repos/octo/hello" |}.

Definition actor : Actor.t :=
  {| Actor.id := 3;
     Actor.login := "Octocat";
     Actor.display_login := None;
     Actor.avatar_url := "https://avatars.githubusercontent.com/u/3";
     Actor.url := Some "https://api.github.com/users/Octocat" |}.

Definition payload : Payload.t :=
  {| Payload.id := "1001";
     Payload.type := "PushEvent";
     Payload.actor := Some actor;
     Payload.repo := Some repo;
     Payload.created_at := "2025-01-01T00:00:00Z";
     Payload.extra := [] |}.

Definition analysis : Analysis.t :=
  {| Analysis.root_cause := ["direct push"];
     Analysis.impact := ["unreviewed code on main"];
     Analysis.next_steps := ["protect the branch"] |}.

(** The notification of a newly flagged warning. *)
Definition flagged : StreamData.t :=
  {| StreamData.payload := Some payload;
     StreamData.analysis := None;
     StreamData.warning_id := "w1";
     StreamData.warning_type := "Push to default branch";
     StreamData.is_ping := Some false |}.

(** The notification of the same warning once it is analysed. *)
Definition enriched : StreamData.t :=
  {| StreamData.payload := Some payload;
     StreamData.analysis := Some analysis;
     StreamData.warning_id := "w1";
     StreamData.warning_type := "Push to default branch";
     StreamData.is_ping := Some false |}.

Definition ping : StreamData.t :=
  {| StreamData.payload := None;
     StreamData.analysis := None;
     StreamData.warning_id := "";
     StreamData.warning_type := "";
     StreamData.is_ping := Some true |}.

Definition flagged_event : MessageEvent.t :=
  {| MessageEvent.data := "{flagged w1}"; MessageEvent.json := Some flagged |}.

Definition enriched_event : MessageEvent.t :=
  {| MessageEvent.data := "{enriched w1}"; MessageEvent.json := Some enriched |}.

Definition ping_event : MessageEvent.t :=
  {| MessageEvent.data := "{ping}"; MessageEvent.json := Some ping |}.

(** The notification of another warning. *)
Definition other : StreamData.t :=
  {| StreamData.payload := Some payload;
     StreamData.analysis := None;
     StreamData.warning_id := "w2";
     StreamData.warning_type := "Default branch deleted";
     StreamData.is_ping := Some false |}.

Definition other_event : MessageEvent.t :=
  {| MessageEvent.data := "{flagged w2}"; MessageEvent.json := Some other |}.

(** The feed entry of [enriched]. *)
Definition enriched_message : StreamMessage.t :=
  {| StreamMessage.payload := payload;
     StreamMessage.analysis := Some analysis;
     StreamMessage.warning_id := "w1";
     StreamMessage.warning_type := "Push to default branch";
     StreamMessage.is_ping := false |}.

(** The feed entry of [flagged]. *)
Definition flagged_message : StreamMessage.t :=
  {| StreamMessage.payload := payload;
     StreamMessage.analysis := None;
     StreamMessage.warning_id := "w1";
     StreamMessage.warning_type := "Push to default branch";
     StreamMessage.is_ping := false |}.

(** A processed row of [flagged_events] about the repository
    [octo/hello]. *)
Definition row : FlaggedEvent.t :=
  {| FlaggedEvent.id := "w1";
     FlaggedEvent.type := "Push to default branch";
     FlaggedEvent.event_payload := payload;
     FlaggedEvent.root_cause := ["direct push"];
     FlaggedEvent.impact := ["unreviewed code on main"];
     FlaggedEvent.next_steps := ["protect the branch"];
     FlaggedEvent.has_been_processed := true;
     FlaggedEvent.repo_name := Some "hello";
     FlaggedEvent.org_name := None;
     FlaggedEvent.actor_username := Some "Octocat" |}.

End Sample.

(* ================================================================== *)
(** * Part II: properties *)
(* ================================================================== *)

(** ** Facts about strings *)

Lemma append_assoc (a b c : string) : (a ++ b) ++ c = a ++ (b ++ c).
Proof. induction a as [|x a IH]; simpl; [reflexivity | now rewrite IH]. Qed.

(** Lower-casing never yields one of the letters [A]..[Z]. *)
Lemma lower_char_not_capital (c : ascii) :
  is_capital (JsString.lower_char c) = false.
Proof.
  destruct c as [[] [] [] [] [] [] [] []]; vm_compute; reflexivity.
Qed.

(** A lower-cased string never equals a string that starts with a
    capital letter. *)
Lemma toLowerCase_neq_capitalised (s : string) (c : ascii) (rest : string) :
  is_capital c = true ->
  String.eqb (JsString.toLowerCase s) (String c rest) = false.
Proof.
  intros Hc. destruct s as [|a s]; simpl; [reflexivity|].
  destruct (Ascii.eqb (JsString.lower_char a) c) eqn:E; [|reflexivity].
  apply Ascii.eqb_eq in E. subst c.
  rewrite lower_char_not_capital in Hc. discriminate.
Qed.

(** ** The badge colour (C8) *)

(** C8.  Whatever the warning type, [getWarningTypeColor] returns the
    default gray style: it compares the lower-cased type with five
    labels that each start with a capital letter, so none of the five
    cases is ever taken. *)
Theorem getWarningTypeColor_always_default (type : string) :
  WarningCard.getWarningTypeColor type = "bg-gray-100 text-gray-800 border-gray-200".
Proof.
  unfold WarningCard.getWarningTypeColor.
  repeat (rewrite toLowerCase_neq_capitalised by reflexivity).
  reflexivity.
Qed.

(** ** Splitting and joining *)

Lemma split_not_nil (sep : ascii) (s : string) : JsString.split sep s <> [].
Proof.
  induction s as [|c s IH]; simpl; [discriminate|].
  destruct (Ascii.eqb c sep); [discriminate|].
  destruct (JsString.split sep s); [contradiction | discriminate].
Qed.

(** Joining the segments with the separator gives the string back. *)
Lemma concat_split (sep : ascii) (s : string) :
  String.concat (String sep "") (JsString.split sep s) = s.
Proof.
  induction s as [|c s IH]; simpl; [reflexivity|].
  pose proof (split_not_nil sep s) as Hne.
  destruct (Ascii.eqb c sep) eqn:E.
  - apply Ascii.eqb_eq in E. subst c.
    destruct (JsString.split sep s) as [|h t]; [contradiction|].
    simpl in *. now rewrite IH.
  - destruct (JsString.split sep s) as [|h t]; [contradiction|].
    destruct t as [|h' t]; simpl in *; now rewrite IH.
Qed.

(** No segment holds the separator. *)
Lemma split_segments_free (sep : ascii) (s : string) :
  Forall (fun seg => forall pre post, seg <> pre ++ String sep post)
    (JsString.split sep s).
Proof.
  induction s as [|c s IH]; simpl.
  - constructor; [|constructor]. intros [|x pre] post; discriminate.
  - destruct (Ascii.eqb c sep) eqn:E.
    + constructor; [|exact IH]. intros [|x pre] post; discriminate.
    + destruct (JsString.split sep s) as [|h t].
      * constructor; [|constructor].
        intros [|x pre] post; simpl; intros H; injection H as Hc Hs.
        -- subst c. now rewrite Ascii.eqb_refl in E.
        -- destruct pre; discriminate.
      * inversion IH as [|? ? Hh Ht]; subst. constructor; [|exact Ht].
        intros [|x pre] post; simpl; intros H; injection H as Hc Hs.
        -- subst c. now rewrite Ascii.eqb_refl in E.
        -- exact (Hh _ _ Hs).
Qed.

Lemma pop_In (l : list string) (x : string) :
  JsString.pop l = Some x -> In x l.
Proof.
  induction l as [|a l IH]; simpl; [discriminate|].
  destruct l as [|b l].
  - intros H. injection H as ->. now left.
  - intros H. right. now apply IH.
Qed.

Lemma pop_some (l : list string) : l <> [] -> exists x, JsString.pop l = Some x.
Proof.
  induction l as [|a l IH]; [contradiction|]. intros _.
  destruct l as [|b l]; [now exists a|].
  destruct IH as [x Hx]; [discriminate|]. now exists x.
Qed.

(** The popped element ends the joined string. *)
Lemma pop_concat (sep : string) (l : list string) (x : string) :
  JsString.pop l = Some x ->
  String.concat sep l = x \/ exists pre, String.concat sep l = pre ++ sep ++ x.
Proof.
  induction l as [|a l IH]; simpl; [discriminate|].
  destruct l as [|b l].
  - intros H. injection H as ->. now left.
  - intros H. right. destruct (IH H) as [E | [pre E]].
    + exists a. now rewrite E.
    + exists (a ++ sep ++ pre). rewrite E. now rewrite !append_assoc.
Qed.

(** [s.split(sep).pop()] is the last segment of [s]. *)
Lemma pop_split_last_segment (sep : ascii) (s : string) :
  exists seg,
    JsString.pop (JsString.split sep s) = Some seg /\ last_segment sep s seg.
Proof.
  destruct (pop_some (JsString.split sep s) (split_not_nil sep s)) as [seg Hseg].
  exists seg. split; [exact Hseg|]. split.
  - pose proof (split_segments_free sep s) as HF.
    rewrite Forall_forall in HF. apply HF. now apply pop_In.
  - pose proof (pop_concat (String sep "") _ _ Hseg) as H.
    rewrite concat_split in H. destruct H as [H | [pre H]]; [now left|].
    right. exists pre. exact H.
Qed.

(** ** The line numbers of the JSON viewer (C10) *)

Lemma map_from_content (lines : list string) (index : nat) :
  map JsonViewer.content
    (JsonViewer.map_from
       (fun line index => {| JsonViewer.number := index + 1; JsonViewer.content := line |})
       index lines)
  = lines.
Proof.
  revert index. induction lines as [|l lines IH]; intros index; simpl;
    [reflexivity | now rewrite IH].
Qed.

Lemma map_from_number (lines : list string) (index : nat) :
  map JsonViewer.number
    (JsonViewer.map_from
       (fun line index => {| JsonViewer.number := index + 1; JsonViewer.content := line |})
       index lines)
  = seq (index + 1) (List.length lines).
Proof.
  revert index. induction lines as [|l lines IH]; intros index; simpl;
    [reflexivity|].
  rewrite IH. now replace (S index + 1) with (S (index + 1)) by lia.
Qed.

(** C10.  For a truthy JSON document, [formatJsonWithLineNumbers] gives
    one entry per line of [JSON.stringify(obj, null, 2)], in order: the
    contents are the lines and the numbers run from 1 to their count.
    For a falsy document it gives the empty list. *)
Theorem formatJsonWithLineNumbers_numbers_lines (obj : JsValue) :
  let entries := JsonViewer.formatJsonWithLineNumbers obj in
  (JSON.truthy obj = true ->
     lines_of (JSON.stringify2 obj) (map JsonViewer.content entries)
     /\ map JsonViewer.content entries
        = JsString.split JSON.newline (JSON.stringify2 obj)
     /\ map JsonViewer.number entries = seq 1 (List.length entries))
  /\ (JSON.truthy obj = false -> entries = []).
Proof.
  unfold JsonViewer.formatJsonWithLineNumbers, JsonViewer.map_indexed.
  split; intros Ht; rewrite Ht; simpl; [|reflexivity].
  rewrite map_from_content. split; [|split].
  - split; [apply concat_split | apply split_segments_free].
  - reflexivity.
  - rewrite map_from_number.
    rewrite <- (map_from_content (JsString.split JSON.newline (JSON.stringify2 obj)) 0) at 1.
    now rewrite !length_map.
Qed.

(** The viewer on a small payload. *)
Example formatJsonWithLineNumbers_sample :
  JsonViewer.formatJsonWithLineNumbers
    (JObj [("id", JStr "42"); ("public", JBool true); ("sizes", JArr [JNum 1; JNum 20])])
  = [ {| JsonViewer.number := 1; JsonViewer.content := "{" |};
      {| JsonViewer.number := 2;
         JsonViewer.content := "  " ++ JSON.quote "id" ++ ": " ++ JSON.quote "42" ++ "," |};
      {| JsonViewer.number := 3;
         JsonViewer.content := "  " ++ JSON.quote "public" ++ ": true," |};
      {| JsonViewer.number := 4;
         JsonViewer.content := "  " ++ JSON.quote "sizes" ++ ": [" |};
      {| JsonViewer.number := 5; JsonViewer.content := "    1," |};
      {| JsonViewer.number := 6; JsonViewer.content := "    20" |};
      {| JsonViewer.number := 7; JsonViewer.content := "  ]" |};
      {| JsonViewer.number := 8; JsonViewer.content := "}" |} ].
Proof. reflexivity. Qed.

(** ** Replacing the first occurrence *)

Lemma prefix_iff (pat s : string) :
  String.prefix pat s = true <-> exists post, s = pat ++ post.
Proof.
  revert s. induction pat as [|c pat IH]; intros [|d s]; simpl.
  - split; [intros _; now exists "" | reflexivity].
  - split; [intros _; now exists (String d s) | reflexivity].
  - split; [discriminate | intros [post H]; discriminate].
  - destruct (ascii_dec c d) as [->|Hcd].
    + rewrite IH. split; intros [post H]; exists post.
      * now rewrite H.
      * now injection H.
    + split; [discriminate|]. intros [post H]. injection H as H1 H2.
      now subst.
Qed.

Lemma drop_append (pat post : string) :
  JsString.drop (String.length pat) (pat ++ post) = post.
Proof. induction pat as [|c pat IH]; simpl; [now destruct post | exact IH]. Qed.

Lemma replace_unfold (pat rep s : string) :
  JsString.replace pat rep s
  = if String.prefix pat s then rep ++ JsString.drop (String.length pat) s
    else match s with
         | EmptyString => EmptyString
         | String c s' => String c (JsString.replace pat rep s')
         end.
Proof. destruct s; reflexivity. Qed.

(** An occurrence that starts the string is seen by [prefix]. *)
Lemma occurs_at_start (pat s post : string) :
  s = "" ++ pat ++ post -> String.prefix pat s = true.
Proof. intros H. apply prefix_iff. now exists post. Qed.

Lemma prefix_drop (pat s : string) :
  String.prefix pat s = true ->
  exists post, s = pat ++ post /\ JsString.drop (String.length pat) s = post.
Proof.
  intros E. apply prefix_iff in E. destruct E as [post E]. exists post.
  split; [exact E|]. subst s. apply drop_append.
Qed.

(** [s.replace(pat, rep)] replaces the first occurrence of [pat], and
    only that one. *)
Lemma replace_replaces_first (pat rep s : string) :
  replaced_first pat rep s (JsString.replace pat rep s).
Proof.
  induction s as [|c s IH]; rewrite replace_unfold.
  - destruct (String.prefix pat "") eqn:E.
    + destruct (prefix_drop _ _ E) as (post & Hs & Hd). rewrite Hd.
      apply (replaced_at pat rep "" "" post); [exact Hs|]. intros; simpl; lia.
    + apply replaced_none. intros (pre & post & H).
      destruct pre; [|discriminate].
      rewrite (occurs_at_start _ _ _ H) in E. discriminate.
  - destruct (String.prefix pat (String c s)) eqn:E.
    + destruct (prefix_drop _ _ E) as (post & Hs & Hd). rewrite Hd.
      apply (replaced_at pat rep (String c s) "" post); [exact Hs|].
      intros; simpl; lia.
    + remember (JsString.replace pat rep s) as t eqn:Ht. clear Ht.
      destruct IH as [Hno | pre post Hs Hmin].
      * apply replaced_none. intros (pre & post & H).
        destruct pre as [|x pre].
        -- rewrite (occurs_at_start _ _ _ H) in E. discriminate.
        -- injection H as _ H. apply Hno. now exists pre, post.
      * apply (replaced_at pat rep (String c s) (String c pre) post).
        -- simpl. now rewrite <- Hs.
        -- intros [|x pre'] post' H.
           ++ rewrite (occurs_at_start _ _ _ H) in E. discriminate.
           ++ injection H as _ H. simpl. apply le_n_S. exact (Hmin _ _ H).
Qed.

(** ** Repository information (C9) *)

Lemma or_else_some (s d : string) :
  JsString.or_else (Some s) d = if String.eqb s "" then d else s.
Proof. destruct s; reflexivity. Qed.

(** C9, as the code has it.  Without a [repo], [getRepositoryInfo]
    gives the name "Unknown Repository" and the url "#".  With a [repo],
    an empty [repo.name] also counts as unknown; otherwise the name is
    the last "/"-separated segment of [repo.name], or [repo.name] itself
    when that segment is empty.  An empty [repo.url] gives "#";
    otherwise the url is [repo.url] with the first "api.github.com/repos"
    replaced by "github.com". *)
Theorem getRepositoryInfo_name_and_url (message : StreamMessage.t) :
  let info := Utils.getRepositoryInfo message in
  match Payload.repo (StreamMessage.payload message) with
  | None =>
      info = {| Utils.name := "Unknown Repository"; Utils.url := "#" |}
  | Some repo =>
      (if String.eqb (Repo.name repo) ""
       then Utils.name info = "Unknown Repository"
       else exists seg,
           last_segment "/" (Repo.name repo) seg
           /\ Utils.name info = if String.eqb seg "" then Repo.name repo else seg)
      /\ (if String.eqb (Repo.url repo) ""
          then Utils.url info = "#"
          else replaced_first "api.github.com/repos" "github.com"
                 (Repo.url repo) (Utils.url info))
  end.
Proof.
  unfold Utils.getRepositoryInfo.
  destruct (Payload.repo (StreamMessage.payload message)) as [repo|]; cbn zeta.
  - cbn [option_map Utils.name Utils.url]. rewrite !or_else_some. split.
    + destruct (String.eqb (Repo.name repo) "") eqn:E; [reflexivity|].
      destruct (pop_split_last_segment "/" (Repo.name repo)) as (seg & Hpop & Hseg).
      exists seg. split; [exact Hseg|]. rewrite Hpop. apply or_else_some.
    + destruct (String.eqb (Repo.url repo) "") eqn:E; [reflexivity|].
      apply replace_replaces_first.
  - reflexivity.
Qed.

(** The repository of the sample payload. *)
Example getRepositoryInfo_sample :
  Utils.getRepositoryInfo Sample.flagged_message
  = {| Utils.name := "hello"; Utils.url := "https://github.com/octo/hello" |}.
Proof. reflexivity. Qed.

(** A [repo] whose name is empty does not keep it: the name shown is
    "Unknown Repository".  So "the last segment of [repo.name], or
    [repo.name] itself when that segment is empty" does not describe
    every message with a [repo]. *)
Lemma getRepositoryInfo_empty_name_not_kept :
  ~ (forall (message : StreamMessage.t) (repo : Repo.t),
       Payload.repo (StreamMessage.payload message) = Some repo ->
       exists seg,
         last_segment "/" (Repo.name repo) seg
         /\ Utils.name (Utils.getRepositoryInfo message)
            = if String.eqb seg "" then Repo.name repo else seg).
Proof.
  intros H.
  pose (repo := {| Repo.id := 1; Repo.name := ""; Repo.url := "https://api.github.com/repos/o/r" |}).
  pose (message :=
          {| StreamMessage.payload :=
               {| Payload.id := "1"; Payload.type := "PushEvent";
                  Payload.actor := None; Payload.repo := Some repo;
                  Payload.created_at := "2025-01-01T00:00:00Z";
                  Payload.extra := [] |};
             StreamMessage.analysis := None;
             StreamMessage.warning_id := "w1";
             StreamMessage.warning_type := "Push to default branch";
             StreamMessage.is_ping := false |}).
  destruct (H message repo eq_refl) as (seg & [_ Hseg] & Hname).
  assert (seg = "") as ->.
  { destruct Hseg as [E | [pre E]]; [now symmetry|].
    destruct pre; discriminate. }
  vm_compute in Hname. discriminate.
Qed.

(** ** The live feed *)

Local Arguments firstn : simpl never.

Lemma newMessages_cons (message : StreamMessage.t) (prev : list StreamMessage.t) :
  Feedbox.newMessages message prev = message :: firstn 19 prev.
Proof. reflexivity. Qed.

Lemma newMessages_length (message : StreamMessage.t) (prev : list StreamMessage.t) :
  List.length (Feedbox.newMessages message prev) <= 20.
Proof. unfold Feedbox.newMessages. apply firstn_le_length. Qed.

(** What one stream event does to the feed. *)
Lemma onmessage_messages (event : MessageEvent.t) (st : Feedbox.State) :
  Feedbox.messages (Feedbox.onmessage event st)
  = match MessageEvent.json event with
    | Some data =>
        match Feedbox.accepted data with
        | Some message => Feedbox.newMessages message (Feedbox.messages st)
        | None => Feedbox.messages st
        end
    | None => Feedbox.messages st
    end.
Proof.
  unfold Feedbox.onmessage.
  destruct (MessageEvent.json event) as [data|]; [|reflexivity].
  destruct (Feedbox.accepted data); reflexivity.
Qed.

(** A stream event touches nothing but the feed. *)
Lemma onmessage_other_cells (event : MessageEvent.t) (st : Feedbox.State) :
  Feedbox.activeTab (Feedbox.onmessage event st) = Feedbox.activeTab st
  /\ Feedbox.searchQuery (Feedbox.onmessage event st) = Feedbox.searchQuery st
  /\ Feedbox.searchResults (Feedbox.onmessage event st) = Feedbox.searchResults st
  /\ Feedbox.isLoading (Feedbox.onmessage event st) = Feedbox.isLoading st.
Proof.
  unfold Feedbox.onmessage.
  destruct (MessageEvent.json event) as [data|]; [|now repeat split].
  destruct (Feedbox.accepted data); now repeat split.
Qed.

Lemma run_cons (event : MessageEvent.t) (events : list MessageEvent.t)
    (st : Feedbox.State) :
  Feedbox.run (event :: events) st = Feedbox.run events (Feedbox.onmessage event st).
Proof. reflexivity. Qed.

Lemma firstn_app_firstn {A : Type} (n : nat) (a b : list A) :
  firstn n (a ++ firstn n b) = firstn n (a ++ b).
Proof.
  rewrite !firstn_app, firstn_firstn.
  now replace (Nat.min (n - List.length a) n) with (n - List.length a) by lia.
Qed.

(** The feed after a stream: the accepted messages, newest first, cut
    at twenty. *)
Lemma run_messages (events : list MessageEvent.t) (st : Feedbox.State) :
  List.length (Feedbox.messages st) <= 20 ->
  Feedbox.messages (Feedbox.run events st)
  = firstn 20 (rev (accepted_of events) ++ Feedbox.messages st).
Proof.
  revert st. induction events as [|event events IH]; intros st Hst.
  - simpl. symmetry. now apply firstn_all2.
  - rewrite run_cons, IH.
    + rewrite onmessage_messages. unfold accepted_of. simpl.
      fold (accepted_of events).
      destruct (MessageEvent.json event) as [data|]; simpl; [|reflexivity].
      destruct (Feedbox.accepted data) as [message|]; simpl; [|reflexivity].
      unfold Feedbox.newMessages. rewrite firstn_app_firstn.
      now rewrite <- app_assoc.
    + rewrite onmessage_messages.
      destruct (MessageEvent.json event) as [data|]; [|exact Hst].
      destruct (Feedbox.accepted data); [apply newMessages_length | exact Hst].
Qed.

(** The feed tab lists the feed from top to bottom, one card per
    entry. *)
Lemma cards_of_feed (toLocaleString : string -> string) (st : Feedbox.State) :
  Feedbox.activeTab st = Feedbox.feed ->
  map snd (Feedbox.cards toLocaleString st)
  = map (Feedbox.feed_card toLocaleString) (Feedbox.messages st).
Proof.
  intros Htab. unfold Feedbox.cards, JsonViewer.map_indexed. rewrite Htab.
  generalize 0. induction (Feedbox.messages st) as [|m l IH]; intros n; simpl;
    [reflexivity | now rewrite IH].
Qed.

Lemma run_activeTab (events : list MessageEvent.t) (st : Feedbox.State) :
  Feedbox.activeTab (Feedbox.run events st) = Feedbox.activeTab st.
Proof.
  revert st. induction events as [|event events IH]; intros st; [reflexivity|].
  rewrite run_cons, IH. apply onmessage_other_cells.
Qed.

(** A ping, the flagged notification of a warning and its analysed
    notification: the feed holds the two notifications, the later one
    first. *)
Example run_sample :
  map (fun message =>
         (StreamMessage.warning_id message,
          match StreamMessage.analysis message with Some _ => true | None => false end))
    (Feedbox.messages
       (Feedbox.run [Sample.ping_event; Sample.flagged_event; Sample.enriched_event]
          Feedbox.initial))
  = [("w1", true); ("w1", false)].
Proof. reflexivity. Qed.

(** C3.  The feed never holds more than 20 messages.  In every state,
    the handler answers an accepted message by putting it in front of
    the feed and keeping the first 20 entries of the result: the feed it
    leaves has at most 20 entries, and on a full feed the entry that
    goes is the last one, the oldest, while the others stay in order
    behind the new message. *)
Theorem feed_holds_at_most_20 (events : list MessageEvent.t)
    (event : MessageEvent.t) (data : StreamData.t) (message : StreamMessage.t)
    (st : Feedbox.State) :
  List.length (Feedbox.messages (Feedbox.run events Feedbox.initial)) <= 20
  /\ (MessageEvent.json event = Some data ->
      Feedbox.accepted data = Some message ->
      Feedbox.messages (Feedbox.onmessage event st)
      = firstn 20 (message :: Feedbox.messages st)
      /\ List.length (Feedbox.messages (Feedbox.onmessage event st)) <= 20
      /\ (List.length (Feedbox.messages st) = 20 ->
          exists kept oldest,
            Feedbox.messages st = (kept ++ [oldest])%list
            /\ Feedbox.messages (Feedbox.onmessage event st) = message :: kept)).
Proof.
  split.
  - rewrite run_messages by (simpl; lia). apply firstn_le_length.
  - intros Hjson Hacc. rewrite onmessage_messages, Hjson, Hacc.
    split; [reflexivity|]. split; [apply newMessages_length|].
    intros Hfull.
    assert (Hne : Feedbox.messages st <> [])
      by (intros E; rewrite E in Hfull; discriminate).
    exists (removelast (Feedbox.messages st)), (last (Feedbox.messages st) message).
    split; [now apply app_removelast_last|].
    rewrite newMessages_cons, removelast_firstn_len, Hfull. reflexivity.
Qed.

(** A full feed of twenty entries for warning [w2] gets the analysed
    notification of [w1]: the new entry is in front, nineteen of the old
    ones stay behind it. *)
Lemma feed_holds_at_most_20_witness :
  let st := Feedbox.run (repeat Sample.other_event 20) Feedbox.initial in
  List.length (Feedbox.messages st) = 20
  /\ Feedbox.messages (Feedbox.onmessage Sample.enriched_event st)
     = firstn 20 (Sample.enriched_message :: Feedbox.messages st)
  /\ List.length (Feedbox.messages (Feedbox.onmessage Sample.enriched_event st)) <= 20.
Proof.
  pose proof (proj2 (feed_holds_at_most_20 [] Sample.enriched_event Sample.enriched
                       Sample.enriched_message
                       (Feedbox.run (repeat Sample.other_event 20) Feedbox.initial))
                eq_refl eq_refl) as H.
  exact (conj eq_refl (conj (proj1 H) (proj1 (proj2 H)))).
Defined.

(** C7.  The feed shows the accepted messages in arrival order, newest
    first: an accepted message goes to position 0 and the entries kept
    behind it are a prefix of the previous feed, in their previous
    order; after any stream the feed is the reversed sequence of the
    accepted messages cut at twenty, and the feed tab lists its cards
    in that order. *)
Theorem feed_is_newest_first (toLocaleString : string -> string)
    (events : list MessageEvent.t)
    (message : StreamMessage.t) (prev : list StreamMessage.t) :
  (exists kept dropped,
      Feedbox.newMessages message prev = message :: kept
      /\ prev = (kept ++ dropped)%list)
  /\ Feedbox.messages (Feedbox.run events Feedbox.initial)
     = firstn 20 (rev (accepted_of events))
  /\ map snd (Feedbox.cards toLocaleString (Feedbox.run events Feedbox.initial))
     = map (Feedbox.feed_card toLocaleString) (firstn 20 (rev (accepted_of events))).
Proof.
  assert (Hrun : Feedbox.messages (Feedbox.run events Feedbox.initial)
                 = firstn 20 (rev (accepted_of events))).
  { rewrite run_messages by (simpl; lia). simpl. now rewrite app_nil_r. }
  split; [|split].
  - exists (firstn 19 prev), (skipn 19 prev). split.
    + apply newMessages_cons.
    + symmetry. apply firstn_skipn.
  - exact Hrun.
  - rewrite cards_of_feed by (now rewrite run_activeTab). now rewrite Hrun.
Qed.

(** C1, as the code has it.  The Feedbox keeps a ping out of the feed
    and puts every message that is no ping and carries a payload on top
    of it; the page that lists the raw stream filters nothing and
    prepends the data of every event. *)
Theorem feedbox_filters_pings (event : MessageEvent.t) (data : StreamData.t)
    (st : Feedbox.State) (raw : list string) :
  MessageEvent.json event = Some data ->
  (StreamData.is_ping data = Some true -> Feedbox.onmessage event st = st)
  /\ (forall payload,
        StreamData.is_ping data = Some false ->
        StreamData.payload data = Some payload ->
        exists message,
          Feedbox.accepted data = Some message
          /\ StreamMessage.payload message = payload
          /\ StreamMessage.warning_id message = StreamData.warning_id data
          /\ StreamMessage.analysis message = StreamData.analysis data
          /\ Feedbox.messages (Feedbox.onmessage event st)
             = message :: firstn 19 (Feedbox.messages st))
  /\ RawHome.onmessage event raw = MessageEvent.data event :: raw.
Proof.
  intros Hjson. split; [|split].
  - intros Hping. unfold Feedbox.onmessage, Feedbox.accepted.
    rewrite Hjson, Hping. now destruct (StreamData.payload data).
  - intros payload Hping Hpayload.
    rewrite onmessage_messages, Hjson. unfold Feedbox.accepted.
    rewrite Hping, Hpayload. eexists. split; [reflexivity|].
    now repeat split.
  - reflexivity.
Qed.

(** A ping through the Feedbox, and a flagged warning through it. *)
Lemma feedbox_filters_pings_witness :
  Feedbox.onmessage Sample.ping_event Feedbox.initial = Feedbox.initial
  /\ exists message,
       Feedbox.accepted Sample.flagged = Some message
       /\ StreamMessage.payload message = Sample.payload
       /\ StreamMessage.warning_id message = "w1"
       /\ StreamMessage.analysis message = None
       /\ Feedbox.messages (Feedbox.onmessage Sample.flagged_event Feedbox.initial)
          = [message].
Proof.
  split.
  - exact (proj1 (feedbox_filters_pings Sample.ping_event Sample.ping
                    Feedbox.initial [] eq_refl) eq_refl).
  - exact (proj1 (proj2 (feedbox_filters_pings Sample.flagged_event Sample.flagged
                           Feedbox.initial [] eq_refl))
             Sample.payload eq_refl eq_refl).
Defined.

(** Not every subscriber of the stream filters: on the page that
    lists the raw stream a ping lands in the list. *)
Lemma raw_home_keeps_pings :
  ~ (forall (event : MessageEvent.t) (data : StreamData.t) (raw : list string),
       MessageEvent.json event = Some data ->
       StreamData.is_ping data = Some true ->
       RawHome.onmessage event raw = raw).
Proof.
  intros H. specialize (H Sample.ping_event Sample.ping [] eq_refl eq_refl).
  discriminate H.
Qed.

Lemma entries_for_cons (message : StreamMessage.t) (feed : list StreamMessage.t) :
  entries_for (StreamMessage.warning_id message) (message :: feed)
  = message :: entries_for (StreamMessage.warning_id message) feed.
Proof. unfold entries_for. simpl. now rewrite String.eqb_refl. Qed.

(** C6, as the code has it.  A notification that gets past the guard is
    never merged into an entry of the feed: it is put on top as a new
    entry, also when an entry of the feed already carries its warning
    id.  That entry stays as it was and moves one place down; it leaves
    the feed only if it was the twentieth entry, which the cap drops.
    So the entries for the warning are the new one and those among the
    first nineteen of the old feed, at least two when the old entry is
    among them. *)
Theorem same_id_notification_adds_entry (event : MessageEvent.t)
    (data : StreamData.t) (message old : StreamMessage.t)
    (st : Feedbox.State) (i : nat) :
  MessageEvent.json event = Some data ->
  Feedbox.accepted data = Some message ->
  nth_error (Feedbox.messages st) i = Some old ->
  StreamMessage.warning_id old = StreamMessage.warning_id message ->
  let feed := Feedbox.messages (Feedbox.onmessage event st) in
  feed = message :: firstn 19 (Feedbox.messages st)
  /\ nth_error feed 0 = Some message
  /\ nth_error feed (S i) = (if (i <? 19)%nat then Some old else None)
  /\ entries_for (StreamMessage.warning_id message) feed
     = message
       :: entries_for (StreamMessage.warning_id message)
            (firstn 19 (Feedbox.messages st))
  /\ (i < 19 ->
      2 <= List.length (entries_for (StreamMessage.warning_id message) feed)).
Proof.
  intros Hjson Hacc Hold Hid. cbn zeta.
  rewrite onmessage_messages, Hjson, Hacc, newMessages_cons.
  assert (Hnth : nth_error (firstn 19 (Feedbox.messages st)) i
                 = if (i <? 19)%nat then Some old else None).
  { rewrite nth_error_firstn. now destruct (i <? 19)%nat. }
  split; [reflexivity|]. split; [reflexivity|]. split; [exact Hnth|].
  split; [apply entries_for_cons|].
  intros Hi. rewrite entries_for_cons.
  apply Nat.ltb_lt in Hi. rewrite Hi in Hnth. apply nth_error_In in Hnth.
  assert (Hin : In old (entries_for (StreamMessage.warning_id message)
                          (firstn 19 (Feedbox.messages st)))).
  { apply filter_In. split; [exact Hnth|]. now apply String.eqb_eq. }
  destruct (entries_for (StreamMessage.warning_id message)
              (firstn 19 (Feedbox.messages st))); [contradiction|].
  simpl. lia.
Qed.

(** The analysed notification of a warning that the feed already shows
    as flagged: the flagged entry is still there, in second place, and
    the feed holds two entries for the warning. *)
Lemma same_id_notification_adds_entry_witness :
  let st := Feedbox.run [Sample.flagged_event] Feedbox.initial in
  let feed := Feedbox.messages (Feedbox.onmessage Sample.enriched_event st) in
  nth_error feed 1 = Some Sample.flagged_message
  /\ entries_for "w1" feed = [Sample.enriched_message; Sample.flagged_message].
Proof.
  pose proof (same_id_notification_adds_entry
                Sample.enriched_event Sample.enriched
                Sample.enriched_message Sample.flagged_message
                (Feedbox.run [Sample.flagged_event] Feedbox.initial) 0
                eq_refl eq_refl eq_refl eq_refl) as H.
  exact (conj (proj1 (proj2 (proj2 H))) (proj1 (proj2 (proj2 (proj2 H))))).
Defined.

(** The flagged notification of [w1], nineteen notifications of [w2],
    then the analysed notification of [w1]: the flagged entry was the
    twentieth and is gone, one entry for [w1] is left. *)
Example same_id_twentieth_entry_dropped :
  let st :=
    Feedbox.run (Sample.flagged_event :: repeat Sample.other_event 19)
      Feedbox.initial in
  nth_error (Feedbox.messages st) 19 = Some Sample.flagged_message
  /\ entries_for "w1" (Feedbox.messages (Feedbox.onmessage Sample.enriched_event st))
     = [Sample.enriched_message].
Proof. split; reflexivity. Qed.

(** The feed is not reconciled by warning id: after the flagged and
    then the analysed notification of warning [w1] it holds two entries
    for that warning, where it held one. *)
Lemma second_notification_not_reconciled :
  ~ (forall (events : list MessageEvent.t) (event : MessageEvent.t)
            (data : StreamData.t) (message : StreamMessage.t),
       let st := Feedbox.run events Feedbox.initial in
       let id := StreamMessage.warning_id message in
       MessageEvent.json event = Some data ->
       Feedbox.accepted data = Some message ->
       entries_for id (Feedbox.messages st) <> [] ->
       List.length (entries_for id (Feedbox.messages (Feedbox.onmessage event st)))
       = List.length (entries_for id (Feedbox.messages st))).
Proof.
  intros H.
  specialize (H [Sample.flagged_event] Sample.enriched_event Sample.enriched
                _ eq_refl eq_refl).
  vm_compute in H. specialize (H ltac:(discriminate)). discriminate H.
Qed.

(** ** Search results (C4) *)

(** C4.  Every record the search returns becomes one message of the
    stream's shape, in the same order: its ids, type and payload are
    the record's, [is_ping] is false, and [analysis] is always there,
    made of the record's root cause, impact and next steps.  When the
    search returns nothing the results are empty. *)
Theorem handleSearch_maps_records (flagged_events : option (list FlaggedEvent.t))
    (query : string) (st : Feedbox.State) :
  let results := Feedbox.searchResults (Feedbox.handleSearch flagged_events query st) in
  match Supabase.getRelevantEvents flagged_events query with
  | Some records =>
      Forall2
        (fun event message =>
           StreamMessage.warning_id message = FlaggedEvent.id event
           /\ StreamMessage.warning_type message = FlaggedEvent.type event
           /\ StreamMessage.payload message = FlaggedEvent.event_payload event
           /\ StreamMessage.analysis message
              = Some {| Analysis.root_cause := FlaggedEvent.root_cause event;
                        Analysis.impact := FlaggedEvent.impact event;
                        Analysis.next_steps := FlaggedEvent.next_steps event |}
           /\ StreamMessage.is_ping message = false)
        records results
  | None => results = []
  end.
Proof.
  unfold Feedbox.handleSearch. cbn zeta. cbn [Feedbox.searchResults].
  destruct (Supabase.getRelevantEvents flagged_events query) as [records|];
    [|reflexivity].
  simpl. induction records as [|event records IH]; simpl; constructor.
  - now repeat split.
  - exact IH.
Qed.

(** A search for "hello" over a table of one matching record. *)
Example handleSearch_sample :
  Feedbox.searchResults
    (Feedbox.handleSearch (Some [Sample.row]) "hello" Feedbox.initial)
  = [ {| StreamMessage.payload := Sample.payload;
         StreamMessage.analysis := Some Sample.analysis;
         StreamMessage.warning_id := "w1";
         StreamMessage.warning_type := "Push to default branch";
         StreamMessage.is_ping := false |} ].
Proof. reflexivity. Qed.

(** ** Processing placeholder or analysis (C5) *)

Lemma analysis_eta (a b : Analysis.t) :
  Analysis.root_cause a = Analysis.root_cause b ->
  Analysis.impact a = Analysis.impact b ->
  Analysis.next_steps a = Analysis.next_steps b ->
  a = b.
Proof. destruct a, b; simpl; intros; now subst. Qed.

(** A card whose [isProcessed] and [analysis] props are computed from
    the message as the three call sites do follows the message's
    analysis. *)
Lemma card_follows_analysis_intro (message : StreamMessage.t)
    (props : WarningCard.Props) :
  WarningCard.isProcessed props
  = match StreamMessage.analysis message with Some _ => true | None => false end ->
  WarningCard.analysis props
  = match StreamMessage.analysis message with
    | Some a =>
        Some {| WarningCard.rootCause := Analysis.root_cause a;
                WarningCard.impact := Analysis.impact a;
                WarningCard.nextSteps := Analysis.next_steps a |}
    | None => None
    end ->
  card_follows_analysis message props.
Proof.
  intros Hp Ha. unfold card_follows_analysis, WarningCard.render.
  cbn [WarningCard.content]. rewrite Hp, Ha.
  destruct (StreamMessage.analysis message) as [a|]; simpl.
  - split; [|split].
    + split; [discriminate | reflexivity].
    + split; discriminate.
    + intros b. split.
      * intros H. now injection H as <-.
      * intros H. injection H as H1 H2 H3. f_equal. now apply analysis_eta.
  - split; [|split].
    + split; [discriminate | intros H; now contradiction H].
    + split; reflexivity.
    + intros b. split; discriminate.
Qed.

(** C5.  At each place a warning is displayed, the feed, the search
    results and the viewer, the card shows the "being processed"
    placeholder exactly when the message has no analysis and the root
    cause, impact and next steps sections exactly when it has one;
    [isProcessed] holds exactly when the analysis is there. *)
Theorem card_shows_processing_iff_no_analysis (toLocaleString : string -> string)
    (message : StreamMessage.t) :
  card_follows_analysis message (Feedbox.feed_card toLocaleString message)
  /\ card_follows_analysis message (Feedbox.search_card toLocaleString message)
  /\ exists props,
       Viewer.card toLocaleString (Some message) = Some props
       /\ card_follows_analysis message props.
Proof.
  split; [|split].
  - now apply card_follows_analysis_intro.
  - now apply card_follows_analysis_intro.
  - eexists. split; [reflexivity|]. now apply card_follows_analysis_intro.
Qed.

(** The card of a flagged, not yet analysed warning, and the card of
    the same warning once analysed. *)
Example card_contents_sample :
  WarningCard.content
    (WarningCard.render (Feedbox.feed_card (fun t => t) Sample.flagged_message))
  = WarningCard.BeingProcessed
  /\ WarningCard.content
       (WarningCard.render (Feedbox.search_card (fun t => t) (Feedbox.of_event Sample.row)))
     = WarningCard.AnalysisSections
         ["direct push"] ["unreviewed code on main"] ["protect the branch"].
Proof. split; reflexivity. Qed.

(** ** The search query (C2) *)

Lemma toLowerCase_append (a b : string) :
  JsString.toLowerCase (a ++ b) = JsString.toLowerCase a ++ JsString.toLowerCase b.
Proof. induction a as [|c a IH]; simpl; [reflexivity | now rewrite IH]. Qed.

Lemma toLowerCase_split (s a b : string) :
  JsString.toLowerCase s = a ++ b ->
  exists s1 s2,
    s = s1 ++ s2 /\ JsString.toLowerCase s1 = a /\ JsString.toLowerCase s2 = b.
Proof.
  revert s. induction a as [|c a IH]; intros s H.
  - exists "", s. now repeat split.
  - destruct s as [|d s]; [discriminate|]. simpl in H. injection H as Hc Hs.
    destruct (IH s Hs) as (s1 & s2 & -> & H1 & H2).
    exists (String d s1), s2. simpl. now rewrite Hc, H1.
Qed.

Lemma free_of_cons (chars : list ascii) (c : ascii) (s : string) :
  free_of chars (String c s) = true ->
  existsb (Ascii.eqb c) chars = false /\ free_of chars s = true.
Proof.
  simpl. intros H. apply andb_true_iff in H. destruct H as [H1 H2].
  split; [now apply negb_true_iff in H1 | exact H2].
Qed.

(** A character that is none of [% _ * \]. *)
Lemma plain_char (c : ascii) :
  existsb (Ascii.eqb c) ilike_specials = false ->
  Ascii.eqb c "%" = false /\ Ascii.eqb c "_" = false
  /\ Ascii.eqb c "*" = false /\ Ascii.eqb c "\" = false.
Proof.
  simpl. intros H.
  destruct (Ascii.eqb c "%"), (Ascii.eqb c "_"), (Ascii.eqb c "*"), (Ascii.eqb c "\");
    simpl in H; try discriminate; now repeat split.
Qed.

Lemma star_to_percent_append (a b : string) :
  Supabase.star_to_percent (a ++ b)
  = Supabase.star_to_percent a ++ Supabase.star_to_percent b.
Proof. induction a as [|c a IH]; simpl; [reflexivity | now rewrite IH]. Qed.

Lemma star_to_percent_plain (q : string) :
  free_of ilike_specials q = true -> Supabase.star_to_percent q = q.
Proof.
  induction q as [|c q IH]; intros H; [reflexivity|].
  apply free_of_cons in H. destruct H as [Hc Hq].
  apply plain_char in Hc. destruct Hc as (_ & _ & Hstar & _).
  simpl. now rewrite Hstar, IH.
Qed.

Lemma tokens_plain (q rest : string) (toks : list Supabase.Token) :
  free_of ilike_specials q = true ->
  Supabase.tokens rest = Some toks ->
  Supabase.tokens (q ++ rest) = Some (literals q ++ toks)%list.
Proof.
  intros Hq Hrest. induction q as [|c q IH]; [exact Hrest|].
  apply free_of_cons in Hq. destruct Hq as [Hc Hq].
  apply plain_char in Hc. destruct Hc as (H1 & H2 & _ & H4).
  simpl. now rewrite H1, H2, H4, (IH Hq).
Qed.

(** The pattern of the three filters for a query without special
    characters. *)
Lemma tokens_of_plain_query (q : string) :
  free_of ilike_specials q = true ->
  Supabase.tokens (Supabase.star_to_percent ("%" ++ q ++ "%"))
  = Some (Supabase.AnyRun :: literals q ++ [Supabase.AnyRun])%list.
Proof.
  intros Hq.
  change ("%" ++ q ++ "%") with (String "%" (q ++ "%")).
  cbn [Supabase.star_to_percent]. rewrite star_to_percent_append.
  rewrite (star_to_percent_plain q Hq).
  cbn [Supabase.star_to_percent Ascii.eqb Bool.eqb Supabase.tokens].
  now rewrite (tokens_plain q "%" [Supabase.AnyRun] Hq eq_refl).
Qed.

Lemma matches_any_run_unfold (pattern : list Supabase.Token) (s : string) :
  Supabase.matches (Supabase.AnyRun :: pattern) s
  = Supabase.matches pattern s
    || match s with
       | EmptyString => false
       | String _ s' => Supabase.matches (Supabase.AnyRun :: pattern) s'
       end.
Proof. destruct s; reflexivity. Qed.

(** [%] in front of a pattern: the rest may start anywhere. *)
Lemma matches_any_run (pattern : list Supabase.Token) (s : string) :
  Supabase.matches (Supabase.AnyRun :: pattern) s = true
  <-> exists pre post, s = pre ++ post /\ Supabase.matches pattern post = true.
Proof.
  induction s as [|c s IH]; rewrite matches_any_run_unfold.
  - rewrite orb_false_r. split.
    + intros H. now exists "", "".
    + intros (pre & post & Hs & H). destruct pre; [|discriminate].
      simpl in Hs. now subst post.
  - rewrite orb_true_iff, IH. split.
    + intros [H | (pre & post & Hs & H)].
      * now exists "", (String c s).
      * exists (String c pre), post. simpl. now rewrite Hs.
    + intros (pre & post & Hs & H). destruct pre as [|x pre].
      * left. simpl in Hs. now subst post.
      * right. injection Hs as _ Hs. now exists pre, post.
Qed.

Lemma matches_trailing_run (s : string) :
  Supabase.matches [Supabase.AnyRun] s = true.
Proof.
  induction s as [|c s IH]; rewrite matches_any_run_unfold;
    [reflexivity | rewrite IH; apply orb_true_r].
Qed.

(** The characters of the query, then [%]: the string starts with the
    query, case apart. *)
Lemma matches_literals (q s : string) :
  Supabase.matches (literals q ++ [Supabase.AnyRun]) s = true
  <-> exists post, JsString.toLowerCase s = JsString.toLowerCase q ++ post.
Proof.
  revert s. induction q as [|c q IH]; intros s.
  - simpl literals. simpl app. split.
    + intros _. now exists (JsString.toLowerCase s).
    + intros _. apply matches_trailing_run.
  - destruct s as [|d s]; simpl.
    + split; [discriminate | intros [post H]; discriminate].
    + rewrite andb_true_iff, Ascii.eqb_eq, IH. split.
      * intros [Hc [post H]]. exists post. now rewrite Hc, H.
      * intros [post H]. injection H as Hc H. split; [exact Hc | now exists post].
Qed.

(** For a query without special characters, [ilike] with [%query%] is
    the case-insensitive substring test. *)
Lemma ilike_plain_query (q : string) (column : option string) :
  free_of ilike_specials q = true ->
  Supabase.ilike column ("%" ++ q ++ "%") = true <-> column_contains_ci q column.
Proof.
  intros Hq. unfold Supabase.ilike. rewrite (tokens_of_plain_query q Hq).
  destruct column as [s|]; [|simpl; split; [discriminate | contradiction]].
  rewrite matches_any_run. unfold column_contains_ci, contains_ci, occurs. split.
  - intros (pre & post & Hs & H). apply matches_literals in H.
    destruct H as [rest H]. exists (JsString.toLowerCase pre), rest.
    now rewrite Hs, toLowerCase_append, H.
  - intros (pre & post & H). apply toLowerCase_split in H.
    destruct H as (s1 & s2 & Hs & _ & H2). exists s1, s2. split; [exact Hs|].
    apply matches_literals. now exists post.
Qed.

Lemma getRelevantEvents_selected (flagged_events : option (list FlaggedEvent.t))
    (query : string) (records : list FlaggedEvent.t) (record : FlaggedEvent.t) :
  Supabase.getRelevantEvents flagged_events query = Some records ->
  In record records <->
  exists table,
    flagged_events = Some table /\ In record table
    /\ Supabase.selected query record = true.
Proof.
  unfold Supabase.getRelevantEvents.
  destruct flagged_events as [table|]; simpl; [|discriminate].
  intros H. injection H as <-. rewrite filter_In. split.
  - intros [Hin Hsel]. now exists table.
  - intros (table' & Ht & Hin & Hsel). injection Ht as ->. now split.
Qed.

(** C2, as the code has it.  For a query that holds none of [,], [(]
    and [)], every record [getRelevantEvents] returns is a row of the
    table with [has_been_processed] true whose repository name,
    organisation name or actor username matches the [ilike] pattern
    [%query%]; when the query holds none of [%], [_], [*] and the
    backslash either, this means that the query occurs in one of the
    three, case apart. *)
Theorem getRelevantEvents_only_processed_matches
    (flagged_events : option (list FlaggedEvent.t)) (query : string)
    (records : list FlaggedEvent.t) (record : FlaggedEvent.t) :
  free_of or_delimiters query = true ->
  Supabase.getRelevantEvents flagged_events query = Some records ->
  In record records ->
  (exists table, flagged_events = Some table /\ In record table)
  /\ FlaggedEvent.has_been_processed record = true
  /\ (Supabase.ilike (FlaggedEvent.repo_name record) ("%" ++ query ++ "%") = true
      \/ Supabase.ilike (FlaggedEvent.org_name record) ("%" ++ query ++ "%") = true
      \/ Supabase.ilike (FlaggedEvent.actor_username record) ("%" ++ query ++ "%") = true)
  /\ (free_of ilike_specials query = true ->
      column_contains_ci query (FlaggedEvent.repo_name record)
      \/ column_contains_ci query (FlaggedEvent.org_name record)
      \/ column_contains_ci query (FlaggedEvent.actor_username record)).
Proof.
  intros _ Hdata Hin.
  apply (getRelevantEvents_selected _ _ _ _ Hdata) in Hin.
  destruct Hin as (table & Ht & Hin & Hsel).
  unfold Supabase.selected in Hsel.
  apply andb_true_iff in Hsel. destruct Hsel as [Hp Hor].
  apply Bool.eqb_prop in Hp.
  assert (Hmatch :
    Supabase.ilike (FlaggedEvent.repo_name record) ("%" ++ query ++ "%") = true
    \/ Supabase.ilike (FlaggedEvent.org_name record) ("%" ++ query ++ "%") = true
    \/ Supabase.ilike (FlaggedEvent.actor_username record) ("%" ++ query ++ "%") = true).
  { apply orb_true_iff in Hor. destruct Hor as [Hor | H3]; [|now right; right].
    apply orb_true_iff in Hor. destruct Hor as [H1 | H2]; [now left | now right; left]. }
  split; [now exists table|]. split; [exact Hp|]. split; [exact Hmatch|].
  intros Hplain.
  destruct Hmatch as [H | [H | H]]; apply (ilike_plain_query _ _ Hplain) in H;
    [now left | now right; left | now right; right].
Qed.

(** The search for "hello" over a table holding the sample row. *)
Lemma getRelevantEvents_only_processed_matches_witness :
  FlaggedEvent.has_been_processed Sample.row = true
  /\ (column_contains_ci "hello" (FlaggedEvent.repo_name Sample.row)
      \/ column_contains_ci "hello" (FlaggedEvent.org_name Sample.row)
      \/ column_contains_ci "hello" (FlaggedEvent.actor_username Sample.row)).
Proof.
  pose proof (getRelevantEvents_only_processed_matches
                (Some [Sample.row]) "hello" [Sample.row] Sample.row
                eq_refl eq_refl (or_introl eq_refl)) as H.
  exact (conj (proj1 (proj2 H)) (proj2 (proj2 (proj2 H)) eq_refl)).
Defined.

(** For a query without special characters the search returns every
    processed row in which the query occurs. *)
Lemma getRelevantEvents_returns_matches (table : list FlaggedEvent.t)
    (query : string) (record : FlaggedEvent.t) :
  free_of ilike_specials query = true ->
  In record table ->
  FlaggedEvent.has_been_processed record = true ->
  column_contains_ci query (FlaggedEvent.repo_name record)
  \/ column_contains_ci query (FlaggedEvent.org_name record)
  \/ column_contains_ci query (FlaggedEvent.actor_username record) ->
  exists records,
    Supabase.getRelevantEvents (Some table) query = Some records
    /\ In record records.
Proof.
  intros Hplain Hin Hp Hc. eexists. split; [reflexivity|].
  apply filter_In. split; [exact Hin|]. unfold Supabase.selected.
  rewrite Hp. simpl. rewrite !orb_true_iff.
  destruct Hc as [H | [H | H]]; apply (ilike_plain_query _ _ Hplain) in H;
    [now left; left | now left; right | now right].
Qed.

(** The match is not a plain substring test: for the query [_] the
    sample row is returned although no underscore occurs in its
    repository name, organisation name or actor username. *)
Lemma getRelevantEvents_underscore_matches_any :
  ~ (forall (flagged_events : option (list FlaggedEvent.t)) (query : string)
            (records : list FlaggedEvent.t) (record : FlaggedEvent.t),
       Supabase.getRelevantEvents flagged_events query = Some records ->
       In record records ->
       FlaggedEvent.has_been_processed record = true
       /\ (column_contains_ci query (FlaggedEvent.repo_name record)
           \/ column_contains_ci query (FlaggedEvent.org_name record)
           \/ column_contains_ci query (FlaggedEvent.actor_username record))).
Proof.
  intros H.
  destruct (H (Some [Sample.row]) "_" [Sample.row] Sample.row eq_refl
              (or_introl eq_refl)) as [_ Hc].
  assert (Hno : forall s pre post,
             s = "hello" \/ s = "octocat" -> s <> pre ++ "_" ++ post).
  { intros s pre post [-> | ->] E;
      repeat (destruct pre as [|? pre]; simpl in E;
              [discriminate | injection E as _ E]);
      destruct pre; discriminate. }
  destruct Hc as [Hc | [Hc | Hc]].
  - destruct Hc as (pre & post & E). now apply (Hno "hello" pre post); [left|].
  - exact Hc.
  - destruct Hc as (pre & post & E). now apply (Hno "octocat" pre post); [right|].
Qed.

(* ================================================================== *)
(** * Part III: further properties of the code *)
(* ================================================================== *)

(** ** What a card shows is never empty *)

Lemma or_else_not_empty (a : option string) (d : string) :
  d <> "" -> JsString.or_else a d <> "".
Proof. intros Hd. destruct a as [[|c s]|]; simpl; [exact Hd | discriminate | exact Hd]. Qed.

Lemma replace_not_empty (pat rep s : string) :
  rep <> "" -> s <> "" -> JsString.replace pat rep s <> "".
Proof.
  intros Hrep Hs. rewrite replace_unfold.
  destruct (String.prefix pat s).
  - destruct rep; [contradiction | discriminate].
  - destruct s; [contradiction | discriminate].
Qed.

(** X1.  The name, the url, the warning type, the actor's name, username and
    profile url and the avatar source that a card gets are never empty,
    whatever the message lacks. *)
Theorem card_texts_never_empty (toLocaleString : string -> string)
    (message : StreamMessage.t) :
  Utils.getWarningType message <> ""
  /\ Utils.name (Utils.getRepositoryInfo message) <> ""
  /\ Utils.url (Utils.getRepositoryInfo message) <> ""
  /\ Utils.actor_name (Utils.getActorInfo message) <> ""
  /\ Utils.username (Utils.getActorInfo message) <> ""
  /\ Utils.profileUrl (Utils.getActorInfo message) <> ""
  /\ CardHeader.avatar_src (Feedbox.feed_card toLocaleString message) <> "".
Proof.
  assert (Hrepo : forall a, JsString.or_else a "Unknown Repository" <> "")
    by (intros a; now apply or_else_not_empty).
  repeat split.
  - now apply or_else_not_empty.
  - unfold Utils.getRepositoryInfo. cbn [Utils.name].
    apply or_else_not_empty, Hrepo.
  - unfold Utils.getRepositoryInfo. cbn [Utils.url].
    apply replace_not_empty; [discriminate|]. now apply or_else_not_empty.
  - unfold Utils.getActorInfo. cbn [Utils.actor_name].
    apply or_else_not_empty. now apply or_else_not_empty.
  - unfold Utils.getActorInfo. cbn [Utils.username]. now apply or_else_not_empty.
  - unfold Utils.getActorInfo. cbn [Utils.profileUrl]. now apply or_else_not_empty.
  - unfold CardHeader.avatar_src. now apply or_else_not_empty.
Qed.

(** ** Owner and repository, API and web addresses *)

Lemma free_of_one (sep : ascii) (s : string) :
  free_of [sep] s = true -> forall pre post, s <> pre ++ String sep post.
Proof.
  induction s as [|c s IH]; intros H pre post E.
  - destruct pre; discriminate.
  - apply free_of_cons in H. destruct H as [Hc Hs]. simpl in Hc.
    rewrite orb_false_r in Hc. destruct pre as [|x pre]; injection E as E1 E2.
    + subst c. now rewrite Ascii.eqb_refl in Hc.
    + exact (IH Hs _ _ E2).
Qed.

(** What stands before and after the last separator of a string is
    determined by the string. *)
Lemma after_last_separator (sep : ascii) (a b x y : string) :
  (forall pre post, x <> pre ++ String sep post) ->
  (forall pre post, y <> pre ++ String sep post) ->
  a ++ String sep x = b ++ String sep y ->
  a = b /\ x = y.
Proof.
  intros Hx Hy. revert b. induction a as [|c a IH]; intros [|d b] E;
    simpl in E.
  - split; [reflexivity | now injection E].
  - injection E as E1 E2. now contradiction (Hx b y).
  - injection E as E1 E2. symmetry in E2. now contradiction (Hy a x).
  - injection E as E1 E2. destruct (IH _ E2) as [-> ->]. now subst.
Qed.

(** X2.  For a repository named [owner/repo] the card shows [repo]. *)
Theorem getRepositoryInfo_owner_repo (message : StreamMessage.t) (repo : Repo.t)
    (owner short : string) :
  Payload.repo (StreamMessage.payload message) = Some repo ->
  Repo.name repo = owner ++ String "/" short ->
  short <> "" ->
  free_of ["/"%char] short = true ->
  Utils.name (Utils.getRepositoryInfo message) = short.
Proof.
  intros Hrepo Hname Hshort Hfree.
  unfold Utils.getRepositoryInfo. rewrite Hrepo. cbn [option_map Utils.name].
  rewrite or_else_some.
  assert (Hne : String.eqb (Repo.name repo) "" = false).
  { rewrite Hname. now destruct owner. }
  rewrite Hne.
  destruct (pop_split_last_segment "/" (Repo.name repo)) as (seg & Hpop & Hfree' & Hseg).
  rewrite Hpop, or_else_some.
  assert (seg = short) as ->.
  { pose proof (free_of_one _ _ Hfree) as Hs.
    destruct Hseg as [E | [pre E]].
    - rewrite Hname in E. symmetry in E. now contradiction (Hfree' owner short).
    - rewrite Hname in E. symmetry.
      exact (proj2 (after_last_separator _ _ _ _ _ Hs Hfree' E)). }
  destruct short; [contradiction | reflexivity].
Qed.

Lemma getRepositoryInfo_owner_repo_witness :
  Utils.name (Utils.getRepositoryInfo Sample.flagged_message) = "hello".
Proof.
  exact (getRepositoryInfo_owner_repo Sample.flagged_message Sample.repo
           "octo" "hello" eq_refl eq_refl ltac:(discriminate) eq_refl).
Defined.

(** X3.  The API address of a repository becomes its web address. *)
Theorem getRepositoryInfo_web_url (message : StreamMessage.t) (repo : Repo.t)
    (path : string) :
  Payload.repo (StreamMessage.payload message) = Some repo ->
  Repo.url repo = "https://api.github.com/repos/" ++ path ->
  Utils.url (Utils.getRepositoryInfo message) = "https://github.com/" ++ path.
Proof.
  intros Hrepo Hurl. unfold Utils.getRepositoryInfo.
  rewrite Hrepo. cbn [option_map Utils.url]. rewrite Hurl.
  vm_compute. reflexivity.
Qed.

Lemma getRepositoryInfo_web_url_witness :
  Utils.url (Utils.getRepositoryInfo Sample.flagged_message)
  = "https://github.com/octo/hello".
Proof.
  exact (getRepositoryInfo_web_url Sample.flagged_message Sample.repo
           "octo/hello" eq_refl eq_refl).
Defined.

(** X4.  The API address of a user becomes the address of the profile. *)
Theorem getActorInfo_profile_url (message : StreamMessage.t) (actor : Actor.t)
    (login : string) :
  Payload.actor (StreamMessage.payload message) = Some actor ->
  Actor.url actor = Some ("https://api.github.com/users/" ++ login) ->
  Utils.profileUrl (Utils.getActorInfo message) = "https://github.com/" ++ login.
Proof.
  intros Hactor Hurl. unfold Utils.getActorInfo.
  rewrite Hactor. cbn [option_map Utils.profileUrl]. rewrite Hurl.
  vm_compute. reflexivity.
Qed.

Lemma getActorInfo_profile_url_witness :
  Utils.profileUrl (Utils.getActorInfo Sample.flagged_message)
  = "https://github.com/Octocat".
Proof.
  exact (getActorInfo_profile_url Sample.flagged_message Sample.actor
           "Octocat" eq_refl eq_refl).
Defined.

(** ** The feed tab around its cards *)

Lemma run_feed_length (events : list MessageEvent.t) :
  List.length (Feedbox.messages (Feedbox.run events Feedbox.initial))
  = Nat.min 20 (List.length (accepted_of events)).
Proof.
  rewrite run_messages by (simpl; lia). simpl. rewrite app_nil_r.
  now rewrite length_firstn, length_rev.
Qed.

(** X5.  The feed says "Connecting to the event stream..." until the first
    message gets past the guard: pings and frames that do not parse do
    not end that state. *)
Theorem connecting_until_first_accepted (toLocaleString : string -> string)
    (events : list MessageEvent.t) :
  FeedboxView.body toLocaleString (Feedbox.run events Feedbox.initial)
  = FeedboxView.Connecting
  <-> accepted_of events = [].
Proof.
  unfold FeedboxView.body. rewrite run_activeTab. cbn [Feedbox.initial Feedbox.activeTab].
  rewrite run_feed_length.
  destruct (accepted_of events) as [|m l]; simpl.
  - split; reflexivity.
  - split; discriminate.
Qed.

(** X6.  The heading counts the accepted messages up to twenty and no
    further, and the note "Showing latest 20 warnings" is there exactly
    from the twentieth accepted message on. *)
Theorem feed_title_and_footer (events : list MessageEvent.t) :
  let st := Feedbox.run events Feedbox.initial in
  FeedboxView.title st
  = "Recent Warnings ("
    ++ FeedboxView.number_text (Nat.min 20 (List.length (accepted_of events)))
    ++ ")"
  /\ (FeedboxView.feed_footer st <> None <-> 20 <= List.length (accepted_of events)).
Proof.
  cbn zeta. unfold FeedboxView.title, FeedboxView.feed_footer.
  rewrite run_activeTab. cbn [Feedbox.initial Feedbox.activeTab].
  rewrite run_feed_length. split; [reflexivity|].
  destruct (Nat.leb_spec 20 (Nat.min 20 (List.length (accepted_of events)))) as [H | H].
  - split; [lia | discriminate].
  - split; [intros E; now contradiction E | lia].
Qed.

(** ** The page that lists the raw stream *)

(** X7.  The raw page keeps every event it has received, the latest first:
    nothing is filtered and nothing is ever dropped. *)
Theorem raw_home_keeps_every_event (events : list MessageEvent.t)
    (messages : list string) :
  RawHome.run events messages
  = (rev (map MessageEvent.data events) ++ messages)%list.
Proof.
  revert messages. induction events as [|event events IH]; intros messages;
    [reflexivity|].
  unfold RawHome.run in *. simpl. rewrite IH. unfold RawHome.onmessage.
  now rewrite <- app_assoc.
Qed.

(** ** A failure of the event source *)

Lemma deliver_closed (ds : list Subscription.Delivery) (sub : Subscription.t) :
  Subscription.closed sub = true -> Subscription.run ds sub = sub.
Proof.
  intros Hc. induction ds as [|d ds IH]; [reflexivity|].
  unfold Subscription.run in *. simpl. unfold Subscription.deliver at 2.
  now rewrite Hc.
Qed.

Lemma subscription_run_app (ds ds' : list Subscription.Delivery)
    (sub : Subscription.t) :
  Subscription.run (ds ++ ds') sub = Subscription.run ds' (Subscription.run ds sub).
Proof. unfold Subscription.run. apply fold_left_app. Qed.

(** X8.  After a failure the source is closed for good: whatever it would
    deliver later, messages or failures, the feed stays as it was when
    the failure came. *)
Theorem feed_frozen_after_failure (before after : list Subscription.Delivery)
    (sub : Subscription.t) :
  let failed := Subscription.run (before ++ [Subscription.Failure]) sub in
  Subscription.closed failed = true
  /\ Subscription.feedbox failed
     = Subscription.feedbox (Subscription.run before sub)
  /\ Subscription.run (before ++ Subscription.Failure :: after) sub = failed.
Proof.
  cbn zeta.
  assert (H : Subscription.closed
                (Subscription.run (before ++ [Subscription.Failure]) sub) = true
              /\ Subscription.feedbox
                   (Subscription.run (before ++ [Subscription.Failure]) sub)
                 = Subscription.feedbox (Subscription.run before sub)).
  { rewrite subscription_run_app. unfold Subscription.run at 1 3. simpl.
    unfold Subscription.deliver.
    destruct (Subscription.closed (Subscription.run before sub)) eqn:E;
      [now rewrite E | now split]. }
  destruct H as [Hc Hf]. split; [exact Hc|]. split; [exact Hf|].
  change (Subscription.Failure :: after) with ([Subscription.Failure] ++ after)%list.
  rewrite app_assoc, subscription_run_app. now apply deliver_closed.
Qed.

(** Until a failure, the subscriber's feed is the Feedbox's feed of the
    messages delivered. *)
Lemma subscription_run_messages (events : list MessageEvent.t) :
  Subscription.run (map Subscription.Message events) Subscription.opened
  = {| Subscription.closed := false;
       Subscription.feedbox := Feedbox.run events Feedbox.initial |}.
Proof.
  unfold Subscription.opened. generalize Feedbox.initial.
  induction events as [|event events IH]; intros st; [reflexivity|].
  unfold Subscription.run in *. simpl. unfold Subscription.deliver at 2. simpl.
  now rewrite IH.
Qed.

(** ** The viewer and the feed *)

Lemma home_run_cells (events : list MessageEvent.t) (st : Home.State) :
  Home.currEvent (Home.run events st) = Home.currEvent st
  /\ Home.feedbox (Home.run events st) = Feedbox.run events (Home.feedbox st).
Proof.
  revert st. induction events as [|event events IH]; intros st; [now split|].
  unfold Home.run, Feedbox.run in *. simpl.
  destruct (IH (Home.onmessage event st)) as [H1 H2]. now rewrite H1, H2.
Qed.

(** X9.  The viewer shows the clicked message as it was at the click.
    Whatever the stream brings afterwards, a notification for the same
    warning or enough messages to push the entry out of the feed, the
    viewer's card still follows the analysis the message had then. *)
Theorem viewer_keeps_clicked_message (toLocaleString : string -> string)
    (st : Home.State) (index : nat) (message : StreamMessage.t)
    (events : list MessageEvent.t) :
  nth_error (Home.shown (Home.feedbox st)) index = Some message ->
  let st' := Home.run events (Home.click index st) in
  Home.currEvent st' = Some message
  /\ Home.feedbox st' = Feedbox.run events (Home.feedbox st)
  /\ exists props,
       Viewer.card toLocaleString (Home.currEvent st') = Some props
       /\ card_follows_analysis message props.
Proof.
  intros Hnth. cbn zeta.
  destruct (home_run_cells events (Home.click index st)) as [Hc Hf].
  rewrite Hc, Hf. unfold Home.click. rewrite Hnth.
  cbn [Home.currEvent Home.feedbox]. split; [reflexivity|]. split; [reflexivity|].
  eexists. split; [reflexivity|]. now apply card_follows_analysis_intro.
Qed.

(** The flagged warning is clicked, then its analysed notification
    arrives: the feed gets the analysed entry, the viewer stays on the
    message without analysis. *)
Lemma viewer_keeps_clicked_message_witness :
  let st := {| Home.currEvent := None;
               Home.feedbox := Feedbox.run [Sample.flagged_event] Feedbox.initial |} in
  let st' := Home.run [Sample.enriched_event] (Home.click 0 st) in
  Home.currEvent st' = Some Sample.flagged_message
  /\ List.length (Feedbox.messages (Home.feedbox st')) = 2.
Proof.
  pose proof (viewer_keeps_clicked_message (fun t => t)
                {| Home.currEvent := None;
                   Home.feedbox := Feedbox.run [Sample.flagged_event] Feedbox.initial |}
                0 Sample.flagged_message [Sample.enriched_event] eq_refl) as H.
  exact (conj (proj1 H) eq_refl).
Defined.

(** ** React keys *)

Lemma string_of_uint_digits (d : Decimal.uint) :
  free_of ["-"%char] (NilEmpty.string_of_uint d) = true.
Proof. induction d; simpl; try reflexivity; exact IHd. Qed.

Lemma number_text_digits (n : nat) :
  free_of ["-"%char] (FeedboxView.number_text n) = true.
Proof.
  unfold FeedboxView.number_text, NilZero.string_of_uint.
  destruct (Nat.to_uint n); try reflexivity; apply string_of_uint_digits.
Qed.

Lemma to_uint_not_nil (n : nat) : Nat.to_uint n <> Decimal.Nil.
Proof.
  pose proof (DecimalNat.Unsigned.to_of (Nat.to_uint n)) as H.
  rewrite DecimalNat.Unsigned.of_to in H. rewrite H.
  unfold Decimal.unorm. destruct (Decimal.nzhead (Nat.to_uint n)); discriminate.
Qed.

Lemma number_text_injective (n n' : nat) :
  FeedboxView.number_text n = FeedboxView.number_text n' -> n = n'.
Proof.
  unfold FeedboxView.number_text. intros E.
  apply DecimalNat.Unsigned.to_uint_inj.
  pose proof (NilZero.usu _ (to_uint_not_nil n)) as H.
  pose proof (NilZero.usu _ (to_uint_not_nil n')) as H'.
  rewrite E in H. rewrite H in H'. now injection H'.
Qed.

Lemma key_text_injective (key key' : string * nat) :
  FeedboxView.key_text key = FeedboxView.key_text key' -> key = key'.
Proof.
  destruct key as [a i], key' as [b j]. unfold FeedboxView.key_text. simpl.
  intros E.
  destruct (after_last_separator "-" a b _ _
              (free_of_one _ _ (number_text_digits i))
              (free_of_one _ _ (number_text_digits j)) E) as [-> Hn].
  now rewrite (number_text_injective _ _ Hn).
Qed.

Lemma map_from_indices {A B : Type} (f : A -> nat -> B) (index : B -> nat)
    (start : nat) (l : list A) :
  (forall x i, index (f x i) = i) ->
  map index (JsonViewer.map_from f start l) = seq start (List.length l).
Proof.
  intros Hf. revert start. induction l as [|x l IH]; intros start; simpl;
    [reflexivity | now rewrite Hf, IH].
Qed.

(** X10.  The keys of the cards of a tab are pairwise distinct, also when two
    entries carry the same warning id. *)
Theorem card_keys_distinct (toLocaleString : string -> string)
    (st : Feedbox.State) :
  NoDup (map (fun card => FeedboxView.key_text (fst card))
           (Feedbox.cards toLocaleString st)).
Proof.
  rewrite <- (map_map fst FeedboxView.key_text).
  apply NoDup_map_NoDup_ForallPairs.
  - intros key key' _ _. apply key_text_injective.
  - apply (NoDup_map_inv snd). rewrite map_map.
    unfold Feedbox.cards, JsonViewer.map_indexed.
    destruct (Feedbox.activeTab st);
      rewrite (map_from_indices _ (fun card => snd (fst card))) by reflexivity;
      apply seq_NoDup.
Qed.

(** ** More on the search *)

(** X11.  A search result is never shown as "being processed": each card of
    the results carries its three analysis sections. *)
Theorem search_results_show_analysis (toLocaleString : string -> string)
    (flagged_events : option (list FlaggedEvent.t)) (query : string)
    (st : Feedbox.State) :
  Forall
    (fun message =>
       exists rootCause impact nextSteps,
         WarningCard.content
           (WarningCard.render (Feedbox.search_card toLocaleString message))
         = WarningCard.AnalysisSections rootCause impact nextSteps)
    (Feedbox.searchResults (Feedbox.handleSearch flagged_events query st)).
Proof.
  unfold Feedbox.handleSearch. cbn [Feedbox.searchResults].
  destruct (Supabase.getRelevantEvents flagged_events query) as [rows|];
    [|constructor].
  simpl. induction rows as [|row rows IH]; constructor; [|exact IH].
  now eexists _, _, _.
Qed.

Lemma lower_char_specials (c : ascii) :
  Ascii.eqb (JsString.lower_char c) "%" = Ascii.eqb c "%"
  /\ Ascii.eqb (JsString.lower_char c) "_" = Ascii.eqb c "_"
  /\ Ascii.eqb (JsString.lower_char c) "*" = Ascii.eqb c "*"
  /\ Ascii.eqb (JsString.lower_char c) "\" = Ascii.eqb c "\".
Proof.
  destruct c as [[] [] [] [] [] [] [] []]; vm_compute; now repeat split.
Qed.

Lemma lower_char_twice (c : ascii) :
  JsString.lower_char (JsString.lower_char c) = JsString.lower_char c.
Proof.
  destruct c as [[] [] [] [] [] [] [] []]; vm_compute; reflexivity.
Qed.

Lemma star_to_percent_lower (s : string) :
  Supabase.star_to_percent (JsString.toLowerCase s)
  = JsString.toLowerCase (Supabase.star_to_percent s).
Proof.
  induction s as [|c s IH]; simpl; [reflexivity|]. rewrite IH. f_equal.
  destruct (lower_char_specials c) as (_ & _ & -> & _).
  now destruct (Ascii.eqb c "*").
Qed.

Lemma option_map_cons_lower (t : Supabase.Token) (o : option (list Supabase.Token)) :
  option_map (cons (lower_token t)) (option_map (map lower_token) o)
  = option_map (map lower_token) (option_map (cons t) o).
Proof. now destruct o. Qed.

(** Lower-casing a pattern lower-cases its literal characters and
    nothing else. *)
Lemma tokens_lower (p : string) :
  Supabase.tokens (JsString.toLowerCase p)
  = option_map (map lower_token) (Supabase.tokens p)
  /\ forall c,
       Supabase.tokens (JsString.toLowerCase (String c p))
       = option_map (map lower_token) (Supabase.tokens (String c p)).
Proof.
  induction p as [|d p [IH1 IH2]].
  - split; [reflexivity|]. intros c. simpl.
    destruct (lower_char_specials c) as (-> & -> & _ & ->).
    now destruct (Ascii.eqb c "%"), (Ascii.eqb c "_"), (Ascii.eqb c "\").
  - split; [apply IH2|]. intros c.
    change (JsString.toLowerCase (String c (String d p)))
      with (String (JsString.lower_char c) (JsString.toLowerCase (String d p))).
    cbn [Supabase.tokens].
    destruct (lower_char_specials c) as (-> & -> & _ & ->).
    destruct (Ascii.eqb c "%");
      [rewrite IH2; apply (option_map_cons_lower Supabase.AnyRun)|].
    destruct (Ascii.eqb c "_");
      [rewrite IH2; apply (option_map_cons_lower Supabase.AnyChar)|].
    destruct (Ascii.eqb c "\").
    + change (JsString.toLowerCase (String d p))
        with (String (JsString.lower_char d) (JsString.toLowerCase p)).
      cbv iota. rewrite IH1. apply (option_map_cons_lower (Supabase.Literal d)).
    + rewrite IH2. apply (option_map_cons_lower (Supabase.Literal c)).
Qed.

Lemma matches_lower_token (pattern : list Supabase.Token) (s : string) :
  Supabase.matches (map lower_token pattern) s = Supabase.matches pattern s.
Proof.
  revert s. induction pattern as [|t pattern IH]; intros s; [reflexivity|].
  destruct t as [| |c]; cbn [map lower_token].
  - induction s as [|d s IHs].
    + rewrite (matches_any_run_unfold pattern ""),
        (matches_any_run_unfold (map lower_token pattern) "").
      now rewrite IH.
    + rewrite (matches_any_run_unfold pattern (String d s)),
        (matches_any_run_unfold (map lower_token pattern) (String d s)).
      now rewrite IH, IHs.
  - destruct s; simpl; [reflexivity | apply IH].
  - destruct s as [|d s]; simpl; [reflexivity|].
    now rewrite lower_char_twice, IH.
Qed.

Lemma matches_lower_string (pattern : list Supabase.Token) (s : string) :
  Supabase.matches pattern (JsString.toLowerCase s) = Supabase.matches pattern s.
Proof.
  revert s. induction pattern as [|t pattern IH]; intros s.
  - now destruct s.
  - destruct t as [| |c].
    + induction s as [|d s IHs].
      * reflexivity.
      * change (JsString.toLowerCase (String d s))
          with (String (JsString.lower_char d) (JsString.toLowerCase s)).
        rewrite (matches_any_run_unfold pattern (String d s)).
        rewrite (matches_any_run_unfold pattern (String _ _)).
        rewrite IHs.
        change (String (JsString.lower_char d) (JsString.toLowerCase s))
          with (JsString.toLowerCase (String d s)).
        now rewrite IH.
    + destruct s; simpl; [reflexivity | apply IH].
    + destruct s as [|d s]; simpl; [reflexivity|].
      now rewrite lower_char_twice, IH.
Qed.

(** X12.  The search ignores case, in the query and in the table: the query
    in lower case selects the same rows, and a column matches a value
    exactly when the column in lower case does. *)
Theorem search_ignores_case (flagged_events : option (list FlaggedEvent.t))
    (query : string) (column : option string) (value : string) :
  free_of or_delimiters query = true ->
  Supabase.getRelevantEvents flagged_events (JsString.toLowerCase query)
  = Supabase.getRelevantEvents flagged_events query
  /\ Supabase.ilike (option_map JsString.toLowerCase column) value
     = Supabase.ilike column value.
Proof.
  intros _.
  assert (Hq : forall col,
             Supabase.ilike col ("%" ++ JsString.toLowerCase query ++ "%")
             = Supabase.ilike col ("%" ++ query ++ "%")).
  { intros col. unfold Supabase.ilike.
    change ("%" ++ JsString.toLowerCase query ++ "%")
      with (JsString.toLowerCase "%" ++ JsString.toLowerCase query
            ++ JsString.toLowerCase "%").
    rewrite <- !toLowerCase_append, star_to_percent_lower.
    rewrite (proj1 (tokens_lower _)).
    destruct col as [s|]; [|reflexivity].
    destruct (Supabase.tokens (Supabase.star_to_percent ("%" ++ query ++ "%")));
      [apply matches_lower_token | reflexivity]. }
  split.
  - unfold Supabase.getRelevantEvents.
    destruct flagged_events as [table|]; [|reflexivity]. simpl. f_equal.
    apply filter_ext. intros row. unfold Supabase.selected. now rewrite !Hq.
  - unfold Supabase.ilike. destruct column as [s|]; [|reflexivity]. simpl.
    destruct (Supabase.tokens (Supabase.star_to_percent value));
      [apply matches_lower_string | reflexivity].
Qed.

(** The query "HELLO" finds the row of the repository "hello". *)
Lemma search_ignores_case_witness :
  Supabase.getRelevantEvents (Some [Sample.row]) "hello"
  = Supabase.getRelevantEvents (Some [Sample.row]) "HELLO"
  /\ Supabase.getRelevantEvents (Some [Sample.row]) "HELLO" = Some [Sample.row].
Proof.
  exact (conj (proj1 (search_ignores_case (Some [Sample.row]) "HELLO" None ""
                        eq_refl))
              eq_refl).
Defined.

Lemma matches_two_runs (s : string) :
  Supabase.matches [Supabase.AnyRun; Supabase.AnyRun] s = true.
Proof.
  rewrite matches_any_run_unfold, matches_trailing_run. reflexivity.
Qed.

(** X13.  The empty query selects every processed row that has a repository
    name, an organisation name or an actor username at all. *)
Theorem empty_query_selects_all_processed (table : list FlaggedEvent.t) :
  Supabase.getRelevantEvents (Some table) ""
  = Some (filter
            (fun row => FlaggedEvent.has_been_processed row && has_searched_column row)
            table).
Proof.
  unfold Supabase.getRelevantEvents. simpl. f_equal. apply filter_ext.
  intros row. unfold Supabase.selected, has_searched_column, Supabase.ilike.
  change (Supabase.tokens (Supabase.star_to_percent ("%" ++ "" ++ "%")))
    with (Some [Supabase.AnyRun; Supabase.AnyRun]).
  destruct (FlaggedEvent.has_been_processed row); [|reflexivity]. simpl.
  destruct (FlaggedEvent.repo_name row), (FlaggedEvent.org_name row),
    (FlaggedEvent.actor_username row);
    rewrite ?matches_two_runs; reflexivity.
Qed.

(** X14.  For a query without special characters, every processed row in
    which the query occurs, case apart, is among the search results. *)
Theorem search_finds_every_match (table : list FlaggedEvent.t) (query : string)
    (row : FlaggedEvent.t) (st : Feedbox.State) :
  free_of or_delimiters query = true ->
  free_of ilike_specials query = true ->
  In row table ->
  FlaggedEvent.has_been_processed row = true ->
  column_contains_ci query (FlaggedEvent.repo_name row)
  \/ column_contains_ci query (FlaggedEvent.org_name row)
  \/ column_contains_ci query (FlaggedEvent.actor_username row) ->
  In (Feedbox.of_event row)
    (Feedbox.searchResults (Feedbox.handleSearch (Some table) query st)).
Proof.
  intros _ Hplain Hin Hp Hc.
  destruct (getRelevantEvents_returns_matches table query row Hplain Hin Hp Hc)
    as (records & Hdata & Hrow).
  unfold Feedbox.handleSearch. cbn [Feedbox.searchResults]. rewrite Hdata.
  simpl. now apply in_map.
Qed.

Lemma search_finds_every_match_witness :
  In (Feedbox.of_event Sample.row)
    (Feedbox.searchResults
       (Feedbox.handleSearch (Some [Sample.row]) "CAT" Feedbox.initial)).
Proof.
  apply (search_finds_every_match [Sample.row] "CAT" Sample.row Feedbox.initial
           eq_refl eq_refl (or_introl eq_refl) eq_refl).
  right. right. now exists "octo", "".
Defined.

(** ** The search box *)

Lemma trimStart_all_space (s : string) :
  all_space s = true -> SearchBox.trimStart s = "".
Proof.
  induction s as [|c s IH]; simpl; [reflexivity|]. intros H.
  apply andb_true_iff in H. destruct H as [Hc Hs]. rewrite Hc. now apply IH.
Qed.

Lemma trimStart_some_char (s : string) :
  all_space s = false ->
  exists c rest,
    SearchBox.trimStart s = String c rest /\ SearchBox.is_space c = false.
Proof.
  induction s as [|c s IH]; simpl; [discriminate|]. intros H.
  destruct (SearchBox.is_space c) eqn:Hc.
  - simpl in H. now apply IH.
  - now exists c, s.
Qed.

Lemma trimEnd_some_char (c : ascii) (rest : string) :
  SearchBox.is_space c = false -> SearchBox.trimEnd (String c rest) <> "".
Proof.
  intros Hc. simpl. rewrite Hc. destruct (SearchBox.trimEnd rest); discriminate.
Qed.

(** A string trims to nothing exactly when it is all white space. *)
Lemma trim_empty (s : string) :
  String.eqb (SearchBox.trim s) "" = all_space s.
Proof.
  unfold SearchBox.trim. destruct (all_space s) eqn:E.
  - now rewrite trimStart_all_space.
  - destruct (trimStart_some_char s E) as (c & rest & -> & Hc).
    apply String.eqb_neq. now apply trimEnd_some_char.
Qed.

(** X15.  In the search tab, a query that is empty or all white space is
    never searched, the results are cleared instead; any other query is
    scheduled as it was typed, white space around it included, 300 ms
    later.  In the feed tab the effect does nothing. *)
Theorem auto_search_skips_blank_queries (st : Feedbox.State) :
  SearchBox.auto_search st
  = match Feedbox.activeTab st with
    | Feedbox.feed => SearchBox.Idle
    | Feedbox.search =>
        if all_space (Feedbox.searchQuery st) then SearchBox.Clear
        else SearchBox.Schedule (Feedbox.searchQuery st) 300
    end.
Proof.
  unfold SearchBox.auto_search. rewrite trim_empty.
  now destruct (Feedbox.activeTab st), (all_space (Feedbox.searchQuery st)).
Qed.

(** X16.  A search that fails or finds nothing ends in "No search results",
    whatever the tab showed before: earlier results are gone and the
    loading note is off. *)
Theorem search_without_result_shows_none (toLocaleString : string -> string)
    (flagged_events : option (list FlaggedEvent.t)) (query : string)
    (st : Feedbox.State) :
  Feedbox.activeTab st = Feedbox.search ->
  Supabase.getRelevantEvents flagged_events query = None
  \/ Supabase.getRelevantEvents flagged_events query = Some [] ->
  exists hint,
    FeedboxView.body toLocaleString (Feedbox.handleSearch flagged_events query st)
    = FeedboxView.NoResults hint
    /\ FeedboxView.search_footer (Feedbox.handleSearch flagged_events query st) = None.
Proof.
  intros Htab Hdata. eexists.
  unfold FeedboxView.body, FeedboxView.search_footer, Feedbox.handleSearch.
  cbn [Feedbox.activeTab Feedbox.searchResults Feedbox.isLoading Feedbox.searchQuery].
  rewrite Htab. destruct Hdata as [-> | ->]; simpl; now split.
Qed.

(** The sample results are on screen and the next request fails. *)
Lemma search_without_result_shows_none_witness :
  let st :=
    SearchBox.setActiveTab Feedbox.search
      (Feedbox.handleSearch (Some [Sample.row]) "hello" Feedbox.initial) in
  Feedbox.searchResults st <> []
  /\ exists hint,
       FeedboxView.body (fun t => t) (Feedbox.handleSearch None "hello" st)
       = FeedboxView.NoResults hint
       /\ FeedboxView.search_footer (Feedbox.handleSearch None "hello" st) = None.
Proof.
  split; [discriminate|].
  exact (search_without_result_shows_none (fun t => t) None "hello"
           (SearchBox.setActiveTab Feedbox.search
              (Feedbox.handleSearch (Some [Sample.row]) "hello" Feedbox.initial))
           eq_refl (or_introl eq_refl)).
Defined.

(** X17.  While a search waits for its answer the earlier results stay on
    screen; "Loading search results..." shows only when there are
    none. *)
Theorem waiting_search_keeps_results (toLocaleString : string -> string)
    (st : Feedbox.State) :
  Feedbox.activeTab st = Feedbox.search ->
  FeedboxView.body toLocaleString (SearchBox.handleSearch_waiting st)
  = match Feedbox.searchResults st with
    | [] => FeedboxView.LoadingResults
    | _ :: _ => FeedboxView.SearchCards (Feedbox.cards toLocaleString st)
    end.
Proof.
  intros Htab. unfold FeedboxView.body, SearchBox.handleSearch_waiting,
    SearchBox.setIsLoading, Feedbox.cards.
  cbn [Feedbox.activeTab Feedbox.searchResults Feedbox.isLoading Feedbox.messages].
  rewrite Htab. now destruct (Feedbox.searchResults st).
Qed.

Lemma waiting_search_keeps_results_witness :
  FeedboxView.body (fun t => t)
    (SearchBox.handleSearch_waiting (SearchBox.setActiveTab Feedbox.search Feedbox.initial))
  = FeedboxView.LoadingResults.
Proof.
  exact (waiting_search_keeps_results (fun t => t)
           (SearchBox.setActiveTab Feedbox.search Feedbox.initial) eq_refl).
Defined.

(** X18.  The feed and the search do not touch each other: a stream event
    and the end of a search give the same state in either order. *)
Theorem stream_and_search_commute (event : MessageEvent.t)
    (flagged_events : option (list FlaggedEvent.t)) (query : string)
    (st : Feedbox.State) :
  Feedbox.handleSearch flagged_events query (Feedbox.onmessage event st)
  = Feedbox.onmessage event (Feedbox.handleSearch flagged_events query st).
Proof.
  unfold Feedbox.onmessage.
  destruct (MessageEvent.json event) as [data|]; [|reflexivity].
  destruct (Feedbox.accepted data); reflexivity.
Qed.

(** ** The lines of the JSON viewer *)

Lemma JsValue_nested_ind (P : JsValue -> Prop) :
  P JNull ->
  (forall b, P (JBool b)) ->
  (forall n, P (JNum n)) ->
  (forall s, P (JStr s)) ->
  (forall items, Forall P items -> P (JArr items)) ->
  (forall props, Forall (fun kv => P (snd kv)) props -> P (JObj props)) ->
  forall v, P v.
Proof.
  intros Hnull Hbool Hnum Hstr Harr Hobj.
  fix IH 1. intros [ |b|n|s|items|props].
  - exact Hnull.
  - apply Hbool.
  - apply Hnum.
  - apply Hstr.
  - apply Harr.
    exact ((fix all (l : list JsValue) : Forall P l :=
              match l with
              | [] => Forall_nil P
              | x :: l' => Forall_cons x (IH x) (all l')
              end) items).
  - apply Hobj.
    exact ((fix all (l : list (string * JsValue))
              : Forall (fun kv => P (snd kv)) l :=
              match l with
              | [] => Forall_nil _
              | kv :: l' => Forall_cons kv (IH (snd kv)) (all l')
              end) props).
Qed.

Lemma count_char_append (c : ascii) (a b : string) :
  count_char c (a ++ b) = count_char c a + count_char c b.
Proof. induction a as [|x a IH]; simpl; [reflexivity | rewrite IH; lia]. Qed.

(** A string has one segment more than separators. *)
Lemma split_length (sep : ascii) (s : string) :
  List.length (JsString.split sep s) = S (count_char sep s).
Proof.
  induction s as [|c s IH]; simpl; [reflexivity|].
  destruct (Ascii.eqb c sep); simpl; [now rewrite IH|].
  destruct (JsString.split sep s); simpl in *; [discriminate | exact IH].
Qed.

Lemma quote_char_one_line (c : ascii) :
  count_char JSON.newline (JSON.quote_char c) = 0.
Proof. destruct c as [[] [] [] [] [] [] [] []]; vm_compute; reflexivity. Qed.

(** A quoted string holds no line feed: the line feeds of the string
    are written as backslash and n. *)
Lemma quote_one_line (s : string) : count_char JSON.newline (JSON.quote s) = 0.
Proof.
  unfold JSON.quote. rewrite !count_char_append.
  assert (H : count_char JSON.newline (JSON.quote_body s) = 0).
  { induction s as [|c s IH]; simpl; [reflexivity|].
    now rewrite count_char_append, quote_char_one_line, IH. }
  rewrite H. reflexivity.
Qed.

Lemma digits_one_line (d : Decimal.uint) :
  count_char JSON.newline (NilEmpty.string_of_uint d) = 0.
Proof. induction d; simpl; try reflexivity; exact IHd. Qed.

Lemma number_one_line (n : Z) :
  count_char JSON.newline (JSON.number_to_string n) = 0.
Proof.
  unfold JSON.number_to_string, NilZero.string_of_int, NilZero.string_of_uint.
  destruct (Z.to_int n) as [d|d]; destruct d; simpl; try reflexivity;
    apply digits_one_line.
Qed.

(** The line feeds of joined strings: those of the strings and those
    of the separators between them. *)
Lemma count_char_join (c : ascii) (sep : string) (l : list string) :
  count_char c (JsString.join sep l)
  = list_sum (map (count_char c) l) + (List.length l - 1) * count_char c sep.
Proof.
  unfold JsString.join. induction l as [|x l IH]; [reflexivity|].
  destruct l as [|y l].
  - simpl. lia.
  - change (String.concat sep (x :: y :: l))
      with (x ++ sep ++ String.concat sep (y :: l)).
    rewrite !count_char_append, IH. simpl. lia.
Qed.

Lemma sum_of_lines {A : Type} (breaks lines : A -> nat) (l : list A) :
  Forall (fun x => S (breaks x) = lines x) l ->
  list_sum (map breaks l) + List.length l = list_sum (map lines l).
Proof.
  induction 1 as [|x l Hx _ IH]; [reflexivity|]. simpl. lia.
Qed.

(** The serialisation of a document takes the lines its shape gives,
    whatever its strings hold. *)
Lemma serialize_line_count (gap : string) (v : JsValue) :
  count_char JSON.newline gap = 0 ->
  forall indent,
    count_char JSON.newline indent = 0 ->
    S (count_char JSON.newline (JSON.serialize gap indent v)) = line_count v.
Proof.
  intros Hgap. induction v as [ |b|n|s|items IH|props IH] using JsValue_nested_ind;
    intros indent Hindent.
  - reflexivity.
  - now destruct b.
  - cbn [JSON.serialize line_count]. now rewrite number_one_line.
  - cbn [JSON.serialize line_count]. now rewrite quote_one_line.
  - destruct items as [|item items]; [reflexivity|].
    assert (Hinner : count_char JSON.newline (indent ++ gap) = 0)
      by (rewrite count_char_append; lia).
    assert (Hsum := sum_of_lines
              (fun x => count_char JSON.newline (JSON.serialize gap (indent ++ gap) x))
              line_count (item :: items)).
    assert (Hall : Forall
                     (fun x => S (count_char JSON.newline
                                    (JSON.serialize gap (indent ++ gap) x))
                               = line_count x)
                     (item :: items)).
    { eapply Forall_impl; [|exact IH]. intros x Hx. exact (Hx _ Hinner). }
    specialize (Hsum Hall).
    change (JSON.serialize gap indent (JArr (item :: items)))
      with ("[" ++ JSON.nl ++ (indent ++ gap)
            ++ JsString.join ("," ++ JSON.nl ++ (indent ++ gap))
                 (map (JSON.serialize gap (indent ++ gap)) (item :: items))
            ++ JSON.nl ++ indent ++ "]").
    change (line_count (JArr (item :: items)))
      with (2 + list_sum (map line_count (item :: items))).
    rewrite !count_char_append, count_char_join, !count_char_append, Hindent, Hgap.
    rewrite length_map, map_map.
    change (count_char JSON.newline "[") with 0.
    change (count_char JSON.newline "]") with 0.
    change (count_char JSON.newline ",") with 0.
    change (count_char JSON.newline JSON.nl) with 1.
    cbn [List.length] in *. lia.
  - destruct props as [|prop props]; [reflexivity|].
    assert (Hinner : count_char JSON.newline (indent ++ gap) = 0)
      by (rewrite count_char_append; lia).
    assert (Hsum := sum_of_lines
              (fun kv => count_char JSON.newline
                           (JSON.quote (fst kv) ++ ": "
                            ++ JSON.serialize gap (indent ++ gap) (snd kv)))
              (fun kv => line_count (snd kv)) (prop :: props)).
    change (JSON.serialize gap indent (JObj (prop :: props)))
      with ("{" ++ JSON.nl ++ (indent ++ gap)
            ++ JsString.join ("," ++ JSON.nl ++ (indent ++ gap))
                 (map (fun kv => JSON.quote (fst kv) ++ ": "
                                 ++ JSON.serialize gap (indent ++ gap) (snd kv))
                    (prop :: props))
            ++ JSON.nl ++ indent ++ "}").
    change (line_count (JObj (prop :: props)))
      with (2 + list_sum (map (fun kv => line_count (snd kv)) (prop :: props))).
    rewrite (count_char_append _ "{"), (count_char_append _ JSON.nl),
      (count_char_append _ (indent ++ gap)), (count_char_append _ (JsString.join _ _)),
      (count_char_append _ JSON.nl), (count_char_append _ indent),
      count_char_join, (count_char_append _ ","), (count_char_append _ JSON.nl),
      Hinner, Hindent.
    rewrite length_map, map_map.
    change (count_char JSON.newline "{") with 0.
    change (count_char JSON.newline "}") with 0.
    change (count_char JSON.newline ",") with 0.
    change (count_char JSON.newline JSON.nl) with 1.
    assert (Hall : Forall
                     (fun kv => S (count_char JSON.newline
                                     (JSON.quote (fst kv) ++ ": "
                                      ++ JSON.serialize gap (indent ++ gap) (snd kv)))
                                = line_count (snd kv))
                     (prop :: props)).
    { apply (Forall_impl _ (P := fun kv => forall indent,
                                 count_char JSON.newline indent = 0 ->
                                 S (count_char JSON.newline
                                      (JSON.serialize gap indent (snd kv)))
                                 = line_count (snd kv))); [|exact IH].
      intros kv Hkv. rewrite !count_char_append, quote_one_line.
      change (count_char JSON.newline ": ") with 0. exact (Hkv _ Hinner). }
    specialize (Hsum Hall). cbn [List.length] in *.
    rewrite ?count_char_append, ?Hindent, ?Hgap.
    change (count_char JSON.newline "}") with 0. lia.
Qed.

Lemma map_from_length {A B : Type} (f : A -> nat -> B) (index : nat) (l : list A) :
  List.length (JsonViewer.map_from f index l) = List.length l.
Proof.
  revert index. induction l as [|x l IH]; intros index; simpl;
    [reflexivity | now rewrite IH].
Qed.

(** X19.  The viewer shows as many lines as the shape of the document gives:
    a string, a key or a number never runs over two lines, so a scalar
    and an empty array or object take one line, and an array or object
    with members takes the lines of its members and two more. *)
Theorem formatJsonWithLineNumbers_line_count (obj : JsValue) :
  JSON.truthy obj = true ->
  List.length (JsonViewer.formatJsonWithLineNumbers obj) = line_count obj.
Proof.
  intros Ht. unfold JsonViewer.formatJsonWithLineNumbers, JsonViewer.map_indexed.
  rewrite Ht. simpl. rewrite map_from_length, split_length.
  now apply serialize_line_count.
Qed.

Lemma formatJsonWithLineNumbers_line_count_witness :
  List.length
    (JsonViewer.formatJsonWithLineNumbers
       (JObj [("id", JStr "42"); ("sizes", JArr [JNum 1; JNum 20]); ("none", JObj [])]))
  = 8.
Proof.
  exact (formatJsonWithLineNumbers_line_count
           (JObj [("id", JStr "42"); ("sizes", JArr [JNum 1; JNum 20]); ("none", JObj [])])
           eq_refl).
Defined.
